(** * wallpaper.py: the selection manager, its command parser and its rotation loop

    A shallow embedding of [src/wallpaper.py].  The manager object, the two
    snapshot files, the desktop background and the observable calls are one
    explicit state; every method is a function on that state whose result
    says how the call ended: it returned, it raised, or it is stuck on
    [threading.Lock.acquire]. *)

From Stdlib Require Import List String Ascii Bool Arith ZArith Lia.
Import ListNotations.
Open Scope string_scope.
Open Scope list_scope.
Open Scope nat_scope.

(** ** Python values used by the program *)

Module Py.

(** Exceptions the modelled code can raise: [list.remove] of an absent
    element, [random.choice] of an empty sequence (and an index out of
    range), a failing [open]/[json.dump]. *)
Inductive exn := ValueError | IndexError | OSError.

(** [str.lower] on one character.  Characters are code points below 256:
    A-Z and the Latin-1 capitals (all of U+00C0..U+00DE but the
    multiplication sign U+00D7) move 32 places up. *)
Definition lower_char (c : ascii) : ascii :=
  let n := nat_of_ascii c in
  if ((65 <=? n) && (n <=? 90))
     || ((192 <=? n) && (n <=? 222) && negb (n =? 215))
  then ascii_of_nat (n + 32) else c.

Fixpoint lower (s : string) : string :=
  match s with
  | EmptyString => EmptyString
  | String c r => String (lower_char c) (lower r)
  end.

(** [str.isspace] on one character below 256. *)
Definition isspace (c : ascii) : bool :=
  let n := nat_of_ascii c in
  ((9 <=? n) && (n <=? 13)) || ((28 <=? n) && (n <=? 32))
  || (n =? 133) || (n =? 160).

(** [str.split()] without argument: the maximal runs of non-space
    characters, in order.  [cur] is the run being read. *)
Fixpoint split_from (cur : string) (s : string) : list string :=
  match s with
  | EmptyString => match cur with EmptyString => [] | _ => [cur] end
  | String c r =>
      if isspace c
      then match cur with
           | EmptyString => split_from EmptyString r
           | _ => cur :: split_from EmptyString r
           end
      else split_from (String.append cur (String c EmptyString)) r
  end.

Definition split (s : string) : list string := split_from EmptyString s.

Definition startswith (s p : string) : bool := String.prefix p s.

Definition endswith (s suf : string) : bool :=
  (String.length suf <=? String.length s)
  && String.eqb (substring (String.length s - String.length suf)
                           (String.length suf) s) suf.

(** [x in seq] for a sequence of strings. *)
Definition mem (x : string) (l : list string) : bool :=
  existsb (String.eqb x) l.

(** [list.remove(x)]: drops the first element equal to [x]; [None] is the
    [ValueError] Python raises when there is none. *)
Fixpoint remove (x : string) (l : list string) : option (list string) :=
  match l with
  | [] => None
  | y :: r =>
      if String.eqb x y then Some r
      else match remove x r with
           | Some r' => Some (y :: r')
           | None => None
           end
  end.

(** [random.choice(seq)]: some element of a non-empty sequence, here the
    one the random source [r] selects; [None] is the [IndexError] raised on
    an empty sequence. *)
Definition choice (r : nat) (l : list string) : option string :=
  nth_error l (r mod List.length l).

End Py.

(** ** The state *)

(** What a write of a snapshot file meets: success, a failing [open] (the
    file keeps its content), or a failure once the file was truncated for
    writing (the file no longer holds a whole snapshot). *)
Inductive io := IoOk | IoFailOpen | IoFailWrite.

Inductive snapshot := DislikedCheckpoint | Favorites.

(** The calls that leave the manager. *)
Inductive event :=
| SetWallpaper (path : string)                       (* set_wallpaper(path) *)
| Emit (line : string)                 (* print(line, file=self.file_out) *)
| Dump (file : snapshot) (content : list string)      (* a completed json.dump *)
| Print (line : string)                          (* print(...) to stdout *)
| Sleep (seconds : nat).                        (* time.sleep(seconds) *)

(** The fields of [WallpaperManager] that the methods read or write, then
    the world around it: the desktop background, the two snapshot files
    ([None]: not a whole snapshot) and the calls made so far, oldest first.
    [lock] is [self.lock.locked()]. *)
Record State := mkState {
  indexed : list string;
  disliked_filepaths : list string;
  favorites_filepaths : list string;
  history : list string;
  chosen : string;
  done : bool;
  file_out : bool;
  update_period_minutes : Z;
  lock : bool;
  desktop : string;
  disk_disliked : option (list string);
  disk_favorites : option (list string);
  trace : list event
}.

Definition set_indexed v s :=
  mkState v (disliked_filepaths s) (favorites_filepaths s) (history s)
    (chosen s) (done s) (file_out s) (update_period_minutes s) (lock s)
    (desktop s) (disk_disliked s) (disk_favorites s) (trace s).
Definition set_disliked_filepaths v s :=
  mkState (indexed s) v (favorites_filepaths s) (history s)
    (chosen s) (done s) (file_out s) (update_period_minutes s) (lock s)
    (desktop s) (disk_disliked s) (disk_favorites s) (trace s).
Definition set_favorites_filepaths v s :=
  mkState (indexed s) (disliked_filepaths s) v (history s)
    (chosen s) (done s) (file_out s) (update_period_minutes s) (lock s)
    (desktop s) (disk_disliked s) (disk_favorites s) (trace s).
Definition set_history v s :=
  mkState (indexed s) (disliked_filepaths s) (favorites_filepaths s) v
    (chosen s) (done s) (file_out s) (update_period_minutes s) (lock s)
    (desktop s) (disk_disliked s) (disk_favorites s) (trace s).
Definition set_chosen v s :=
  mkState (indexed s) (disliked_filepaths s) (favorites_filepaths s) (history s)
    v (done s) (file_out s) (update_period_minutes s) (lock s)
    (desktop s) (disk_disliked s) (disk_favorites s) (trace s).
Definition set_done_flag v s :=
  mkState (indexed s) (disliked_filepaths s) (favorites_filepaths s) (history s)
    (chosen s) v (file_out s) (update_period_minutes s) (lock s)
    (desktop s) (disk_disliked s) (disk_favorites s) (trace s).
Definition set_lock v s :=
  mkState (indexed s) (disliked_filepaths s) (favorites_filepaths s) (history s)
    (chosen s) (done s) (file_out s) (update_period_minutes s) v
    (desktop s) (disk_disliked s) (disk_favorites s) (trace s).
Definition set_desktop v s :=
  mkState (indexed s) (disliked_filepaths s) (favorites_filepaths s) (history s)
    (chosen s) (done s) (file_out s) (update_period_minutes s) (lock s)
    v (disk_disliked s) (disk_favorites s) (trace s).
Definition set_disk_disliked v s :=
  mkState (indexed s) (disliked_filepaths s) (favorites_filepaths s) (history s)
    (chosen s) (done s) (file_out s) (update_period_minutes s) (lock s)
    (desktop s) v (disk_favorites s) (trace s).
Definition set_disk_favorites v s :=
  mkState (indexed s) (disliked_filepaths s) (favorites_filepaths s) (history s)
    (chosen s) (done s) (file_out s) (update_period_minutes s) (lock s)
    (desktop s) (disk_disliked s) v (trace s).
Definition log (e : event) s :=
  mkState (indexed s) (disliked_filepaths s) (favorites_filepaths s) (history s)
    (chosen s) (done s) (file_out s) (update_period_minutes s) (lock s)
    (desktop s) (disk_disliked s) (disk_favorites s) (trace s ++ [e]).

(** How a call ends.  [Blocked]: the caller waits on [self.lock.acquire()]
    and nobody is left to release the lock. *)
Inductive outcome (St A : Type) :=
| Returned (a : A) (s : St)
| Raise (e : Py.exn) (s : St)
| Blocked (s : St).
Arguments Returned {St A} a s.
Arguments Raise {St A} e s.
Arguments Blocked {St A} s.

Definition bind {St A B} (m : outcome St A) (k : A -> St -> outcome St B)
  : outcome St B :=
  match m with
  | Returned a s => k a s
  | Raise e s => Raise e s
  | Blocked s => Blocked s
  end.

Definition state_of {St A} (m : outcome St A) : St :=
  match m with
  | Returned _ s | Raise _ s | Blocked s => s
  end.

(** ** External collaborators *)

Definition get_wallpaper (s : State) : string := desktop s.

Definition set_wallpaper (path : string) (s : State) : State :=
  log (SetWallpaper path) (set_desktop path s).

(** [if self.file_out: print(line, file=self.file_out)] *)
Definition emit (line : string) (s : State) : State :=
  if file_out s then log (Emit line) s else s.

(** [with open(path, "w") as fp: json.dump(content, fp)], from the three ways
    the write can go. *)
Definition write_disliked (w : io) (content : list string) (s : State)
  : outcome State unit :=
  match w with
  | IoOk => Returned tt (log (Dump DislikedCheckpoint content)
                           (set_disk_disliked (Some content) s))
  | IoFailOpen => Raise Py.OSError s
  | IoFailWrite => Raise Py.OSError (set_disk_disliked None s)
  end.

Definition write_favorites (w : io) (content : list string) (s : State)
  : outcome State unit :=
  match w with
  | IoOk => Returned tt (log (Dump Favorites content)
                           (set_disk_favorites (Some content) s))
  | IoFailOpen => Raise Py.OSError s
  | IoFailWrite => Raise Py.OSError (set_disk_favorites None s)
  end.

(** ** WallpaperManager *)

(** [__init__], from what it reads: the file index of the root directory,
    the configuration, the two snapshot files and the desktop, whose
    background [wallpaper] becomes Chosen and the seed of the History.  A
    path is kept once for every legal extension it ends with. *)
Definition init (files legal_extensions disliked favorites : list string)
    (wallpaper : string) (period : Z) (sink : bool) : State :=
  let filtered :=
    flat_map (fun filepath =>
                flat_map (fun extension =>
                            if Py.endswith filepath extension
                            then [filepath] else [])
                         legal_extensions)
             files in
  let kept := filter (fun filepath => negb (Py.mem filepath disliked)) filtered in
  let s := mkState kept disliked favorites [] "" false sink period
                   false wallpaper (Some disliked) (Some favorites) [] in
  let s := set_chosen (get_wallpaper s) s in
  set_history [chosen s] s.

(** [self.lock.acquire()]: the caller goes on only when the lock is free. *)
Definition acquire (s : State) : outcome State unit :=
  if lock s then Blocked s else Returned tt (set_lock true s).

(** [self.lock.release()] *)
Definition release (s : State) : State := set_lock false s.

(** Each method is [acquire] followed by the rest of its body, which runs
    with the lock held and says where the lock is released. *)

Definition undo_held (s : State) : outcome State unit :=
  let s :=
    if 1 <? List.length (history s) then
      let s := set_history (removelast (history s)) s in
      let top := last (history s) "" in
      emit top (set_wallpaper top s)
    else s in
  Returned tt (release s).

Definition undo (s : State) : outcome State unit :=
  bind (acquire s) (fun _ s => undo_held s).

Definition favorite_held (w : io) (s : State) : outcome State unit :=
  let s := set_favorites_filepaths (favorites_filepaths s ++ [chosen s]) s in
  let s := emit (chosen s) s in
  match write_favorites w (favorites_filepaths s) s with
  | Returned _ s => Returned tt (release s)
  | Raise e s => Raise e (release s)
  | Blocked s => Blocked s
  end.

Definition favorite (w : io) (s : State) : outcome State unit :=
  bind (acquire s) (fun _ s => favorite_held w s).

Definition pick_held (r : nat) (favorites : bool) (s : State)
  : outcome State unit :=
  let pool :=
    if favorites && (0 <? List.length (favorites_filepaths s))
    then favorites_filepaths s else indexed s in
  match Py.choice r pool with
  | None => Raise Py.IndexError s
  | Some choice =>
      let s := set_chosen choice s in
      let s := emit (chosen s) s in
      let s := set_wallpaper (chosen s) s in
      let s := set_history (history s ++ [chosen s]) s in
      Returned tt (release s)
  end.

Definition pick (r : nat) (favorites : bool) (s : State) : outcome State unit :=
  bind (acquire s) (fun _ s => pick_held r favorites s).

(** The critical section of [dislike]: everything up to the release of the
    lock in the [finally] clause. *)
Definition dislike_held (w : io) (s : State) : outcome State unit :=
  let s := emit (chosen s) s in
  let s := match Py.remove (chosen s) (history s) with
           | Some h => set_history h s
           | None => s
           end in
  match Py.remove (chosen s) (indexed s) with
  | None => Raise Py.ValueError s
  | Some pool =>
      let s := set_indexed pool s in
      let s := set_disliked_filepaths (disliked_filepaths s ++ [chosen s]) s in
      match write_disliked w (disliked_filepaths s) s with
      | Returned _ s => Returned tt (release s)
      | Raise e s => Raise e (release s)
      | Blocked s => Blocked s
      end
  end.

Definition dislike_section (w : io) (s : State) : outcome State unit :=
  bind (acquire s) (fun _ s => dislike_held w s).

(** [dislike] ends with [self.pick()], called after the lock was released. *)
Definition dislike (w : io) (r : nat) (s : State) : outcome State unit :=
  bind (dislike_section w s) (fun _ s => pick r false s).

Definition get_chosen (s : State) : outcome State string :=
  Returned (chosen s) s.

Definition set_done (s : State) : outcome State unit :=
  Returned tt (set_done_flag true s).

(** ** The rotation loop

    [run] executes on its own thread; the command thread works on the same
    manager while [run] sleeps.  [env t] is what the command thread does to
    the state during the sleep number [t] (counted from 0), so that
    [time.sleep(5)] is one [Sleep 5] in the trace followed by [env t]. *)

Definition sleep (env : nat -> State -> State) (t : nat) (s : State) : State :=
  env t (log (Sleep 5) s).

(** [for _ in range(n): if self.done: return; time.sleep(5)]; the boolean
    says whether [run] returned from inside the loop. *)
Fixpoint increments (n : nat) (env : nat -> State -> State) (t : nat)
    (s : State) : bool * nat * State :=
  match n with
  | 0 => (false, t, s)
  | S n' =>
      if done s then (true, t, s)
      else increments n' env (S t) (sleep env t s)
  end.

(** [for _ in range(self.update_period_minutes): for _ in range(60//5): ...] *)
Fixpoint minutes (m : nat) (env : nat -> State -> State) (t : nat)
    (s : State) : bool * nat * State :=
  match m with
  | 0 => (false, t, s)
  | S m' =>
      match increments (60 / 5) env t s with
      | (true, t', s') => (true, t', s')
      | (false, t', s') => minutes m' env t' s'
      end
  end.

(** [run]: [fuel] bounds the number of periods, [None] says the loop is
    still going after that many; [rnd c] is the random source of the pick
    that ends period [c]. *)
Fixpoint run (fuel : nat) (env : nat -> State -> State) (rnd : nat -> nat)
    (t c : nat) (s : State) : option (outcome State unit) :=
  match fuel with
  | 0 => None
  | S fuel' =>
      if done s then Some (Returned tt s)
      else
        match minutes (Z.to_nat (update_period_minutes s)) env t s with
        | (true, _, s') => Some (Returned tt s')
        | (false, t', s') =>
            match pick (rnd c) false s' with
            | Returned _ s'' => run fuel' env rnd t' (S c) s''
            | Raise e s'' => Some (Raise e s'')
            | Blocked s'' => Some (Blocked s'')
            end
        end
  end.

(** ** InputHost *)

Record InputHost := mkHost {
  manager : State;
  mode_favorites : bool
}.

(** A call of a manager method from the host. *)
Definition call {A} (m : outcome State A) (h : InputHost)
  : outcome InputHost A :=
  match m with
  | Returned a s => Returned a (mkHost s (mode_favorites h))
  | Raise e s => Raise e (mkHost s (mode_favorites h))
  | Blocked s => Blocked (mkHost s (mode_favorites h))
  end.

Definition print (line : string) (h : InputHost) : InputHost :=
  mkHost (log (Print line) (manager h)) (mode_favorites h).

(** [InputHost.read(command)]; [r] and [w] are the random source and the
    fate of the snapshot write of the manager method the command runs. *)
Definition read (r : nat) (w : io) (command : string) (h : InputHost)
  : outcome InputHost bool :=
  let command := Py.lower command in
  if Py.mem command ["s"; "sk"; "ski"; "skip"] then
    bind (call (dislike w r (manager h)) h) (fun _ h => Returned true h)
  else if Py.mem command ["u"; "un"; "und"; "undo"] then
    bind (call (undo (manager h)) h) (fun _ h => Returned true h)
  else if Py.mem command ["n"; "ne"; "nex"; "next"] then
    bind (call (pick r (mode_favorites h) (manager h)) h)
         (fun _ h => Returned true h)
  else if Py.mem command ["l"; "li"; "lis"; "list"] then
    let h := print (String.append "Mode: "
                      (if mode_favorites h then "Fav" else "Normal")) h in
    bind (call (get_chosen (manager h)) h)
         (fun wall h => Returned true (print (String.append "Wall: " wall) h))
  else if Py.mem command ["f"; "fa"; "fav"] then
    bind (call (favorite w (manager h)) h) (fun _ h => Returned true h)
  else if Py.startswith command "mode" then
    match Py.split command with
    | [] => Raise Py.IndexError h
    | [_] => Returned true h
    | _ :: arg :: _ =>
        let arg2 := Py.lower arg in
        if String.eqb arg2 "normal" then Returned true (mkHost (manager h) false)
        else if String.eqb arg2 "fav" then Returned true (mkHost (manager h) true)
        else Returned true h
    end
  else if Py.mem command ["exit"; "quit"; "done"] then
    bind (call (set_done (manager h)) h) (fun _ h => Returned false h)
  else if String.eqb command "noop" then Returned true h
  else Returned true h.

(** ** Sequences of calls *)

Inductive op :=
| Pick (favorites : bool) (r : nat)
| Dislike (w : io) (r : nat)
| Undo
| Favorite (w : io)
| GetChosen
| SetDone.

Definition exec (o : op) (s : State) : outcome State unit :=
  match o with
  | Pick favorites r => pick r favorites s
  | Dislike w r => dislike w r s
  | Undo => undo s
  | Favorite w => favorite w s
  | GetChosen => bind (get_chosen s) (fun _ s => Returned tt s)
  | SetDone => set_done s
  end.

(** The operations that call [self.lock.acquire()]. *)
Definition locking (o : op) : bool :=
  match o with
  | Pick _ _ | Dislike _ _ | Undo | Favorite _ => true
  | GetChosen | SetDone => false
  end.

Definition is_undo (o : op) : bool :=
  match o with Undo => true | _ => false end.

(** One caller running [ops] in order: it goes on only while its calls
    return. *)
Fixpoint exec_all (ops : list op) (s : State) : outcome State unit :=
  match ops with
  | [] => Returned tt s
  | o :: rest => bind (exec o s) (fun _ s => exec_all rest s)
  end.

(** Calls made one after the other by whichever thread is still alive: the
    state each call leaves, however it ended, is the state the next one
    finds. *)
Definition exec_any (ops : list op) (s : State) : State :=
  fold_left (fun s o => state_of (exec o s)) ops s.

(** ** Threads

    [ezrun] runs the rotation loop on one thread and the command loop on
    another; both call the methods of the one manager.  A thread is between
    two calls, at a [self.lock.acquire()], inside a critical section, or
    ended by an exception.  One step of the program is one step of one
    thread: it starts a call, gets the lock, or runs the critical section it
    is in up to the release of the lock. *)

Inductive section :=
| InPick (favorites : bool) (r : nat)
| InDislike (w : io)
| InUndo
| InFavorite (w : io).

(** The body of a critical section, run by the thread that holds the lock. *)
Definition held (c : section) (s : State) : outcome State unit :=
  match c with
  | InPick favorites r => pick_held r favorites s
  | InDislike w => dislike_held w s
  | InUndo => undo_held s
  | InFavorite w => favorite_held w s
  end.

(** The critical sections a call goes through, in order. *)
Definition sections (o : op) : list section :=
  match o with
  | Pick favorites r => [InPick favorites r]
  | Dislike w r => [InDislike w; InPick false r]
  | Undo => [InUndo]
  | Favorite w => [InFavorite w]
  | GetChosen | SetDone => []
  end.

(** One caller going through the sections [k] with nobody else around. *)
Fixpoint run_sections (k : list section) (s : State) : outcome State unit :=
  match k with
  | [] => Returned tt s
  | c :: k' =>
      bind (acquire s)
           (fun _ s => bind (held c s) (fun _ s => run_sections k' s))
  end.

Inductive pc :=
| Idle
| Waiting (k : list section)
| Holding (c : section) (k : list section)
| Gone (e : Py.exn).

Definition threads := nat -> pc.

Definition upd (i : nat) (p : pc) (t : threads) : threads :=
  fun j => if j =? i then p else t j.

(** Where a thread stands after a section: at the next one of its call, or
    back between two calls. *)
Definition next (k : list section) : pc :=
  match k with
  | [] => Idle
  | _ => Waiting k
  end.

Inductive step : State -> threads -> State -> threads -> Prop :=
| step_call i o s t :
    t i = Idle -> locking o = true ->
    step s t s (upd i (Waiting (sections o)) t)
| step_unlocked i o s t :
    t i = Idle -> locking o = false ->
    step s t (state_of (exec o s)) t
| step_acquire i c k s s' t :
    t i = Waiting (c :: k) -> acquire s = Returned tt s' ->
    step s t s' (upd i (Holding c k) t)
| step_section i c k s s' t :
    t i = Holding c k -> held c s = Returned tt s' ->
    step s t s' (upd i (next k) t)
| step_raise i c k e s s' t :
    t i = Holding c k -> held c s = Raise e s' ->
    step s t s' (upd i (Gone e) t).

(** The configurations the program reaches from a manager [s0] with all
    threads between calls. *)
Inductive reachable (s0 : State) : State -> threads -> Prop :=
| reach_init : reachable s0 s0 (fun _ => Idle)
| reach_step s t s' t' :
    reachable s0 s t -> step s t s' t' -> reachable s0 s' t'.

Definition holding (p : pc) : bool :=
  match p with
  | Holding _ _ => true
  | _ => false
  end.

(** The lock is held exactly while some thread is inside a section, and
    then by that thread alone. *)
Definition exclusive (s : State) (t : threads) : Prop :=
  (forall i, holding (t i) = true -> lock s = true) /\
  (forall i j, holding (t i) = true -> holding (t j) = true -> i = j).

(** ** Concrete managers used in the examples below *)

(** A pool of three pictures, no snapshot content, a desktop background
    from outside the pool, a one-minute period and an output sink. *)
Definition fresh : State :=
  init ["/w/a.jpg"; "/w/b.jpg"; "/w/c.jpg"; "/w/notes.txt"] [".jpg"] [] []
       "/w/seed.png" 1 true.

(** The same pool when the desktop already shows one of its pictures. *)
Definition fresh_inside : State :=
  init ["/w/a.jpg"; "/w/b.jpg"; "/w/c.jpg"; "/w/notes.txt"] [".jpg"] [] []
       "/w/a.jpg" 1 true.


(** An input host in normal mode on a manager whose Chosen is in the pool. *)
Definition console : InputHost := mkHost fresh_inside false.

(** Thread 0 has called [pick] and holds the lock; the others are between
    calls. *)
Definition picking : threads :=
  upd 0 (Holding (InPick false 0) [])
      (upd 0 (Waiting [InPick false 0]) (fun _ => Idle)).

(** The command thread calls [set_done] during sleep number [k]. *)
Definition stop_during (k : nat) (t : nat) (s : State) : State :=
  if t =? k then set_done_flag true s else s.

(** The command thread does nothing while the loop sleeps. *)
Definition quiet (t : nat) (s : State) : State := s.

(** The state after [n] sleeps of the loop during which nothing else runs. *)
Fixpoint sleeps (n : nat) (s : State) : State :=
  match n with
  | 0 => s
  | S n' => sleeps n' (log (Sleep 5) s)
  end.

(** An operation waits for the lock: called while the lock is held, it does
    not get past [self.lock.acquire()]. *)
Definition waits_for_lock (o : op) : Prop :=
  forall s, lock s = true -> exec o s = Blocked s.

(** [Chosen] is the last element of [History]. *)
Definition chosen_is_top (s : State) : Prop :=
  last (history s) "" = chosen s /\ history s <> [].

(** ** InputStdin *)

Module InputStdin.

(** What [input(...)] does: it returns a line, or the operator interrupts
    it ([KeyboardInterrupt]). *)
Inductive console := Line (command : string) | Interrupt.

Definition prompt : string := "{Skip|Undo|Next|List|Fav|Mode-[Normal|Fav]}>> ".

(** [InputStdin.read]; the prompt of [input] goes to stdout first. *)
Definition read (r : nat) (w : io) (i : console) (h : InputHost)
  : outcome InputHost bool :=
  let h := print prompt h in
  match i with
  | Interrupt =>
      bind (call (set_done (manager h)) h) (fun _ h => Returned false h)
  | Line command => read r w command h
  end.

End InputStdin.

(** The command loop of [ezrun] on the console host,
    [while keep_going: keep_going = input_method.read()], fed with what each
    [read] meets; [None]: the loop is still reading when [inputs] ends. *)
Fixpoint ezrun_loop (inputs : list (nat * io * InputStdin.console))
    (h : InputHost) : option (outcome InputHost unit) :=
  match inputs with
  | [] => None
  | (r, w, i) :: rest =>
      match InputStdin.read r w i h with
      | Returned true h' => ezrun_loop rest h'
      | Returned false h' => Some (Returned tt h')
      | Raise e h' => Some (Raise e h')
      | Blocked h' => Some (Blocked h')
      end
  end.

(** ** InputServer *)

Module InputServer.

(** [self.server_socket]: [None], a socket that was stored but not brought
    to listen (a call after the assignment in [_open] raised), or the
    listening socket. *)
Inductive server := NoSocket | Unbound | Listening.

(** [client_socket] says whether [self.client_socket] is a socket. *)
Record host := mkServer {
  base : InputHost;
  server_socket : server;
  client_socket : bool
}.

(** What the calls of one [read] meet.  [_open]: all goes well, the socket
    cannot be created, or binding and listening fail.  [accept] and [recv]:
    they deliver, or they raise (time-out, connection error, interrupt: the
    bare [except] takes them all); the bytes received may not be UTF-8.
    [interrupt]: a [KeyboardInterrupt] reaches the handler of [read], raised
    on entry of its [try] block. *)
Inductive open_fate := Opened | SocketFailed | BindFailed.
Inductive accept_fate := Accepted | NotAccepted.
Inductive recv_fate := Received (command : string) | Undecodable | NotReceived.

Record fates := mkFates {
  interrupt : bool;
  opening : open_fate;
  accepting : accept_fate;
  receiving : recv_fate
}.

(** [read] returns a boolean or the string ['noop']. *)
Inductive value := VBool (b : bool) | VStr (s : string).

(** The truth value the [while] of [ezrun] sees. *)
Definition truthy (v : value) : bool :=
  match v with
  | VBool b => b
  | VStr s => negb (String.eqb s "")
  end.

Definition _open (f : open_fate) (h : host) : outcome host unit :=
  match server_socket h with
  | NoSocket =>
      match f with
      | Opened => Returned tt (mkServer (base h) Listening (client_socket h))
      | SocketFailed => Raise Py.OSError h
      | BindFailed =>
          Raise Py.OSError (mkServer (base h) Unbound (client_socket h))
      end
  | _ => Returned tt h
  end.

Definition _accept (f : accept_fate) (h : host) : host :=
  match server_socket h with
  | NoSocket => h
  | sock =>
      if client_socket h then h
      else
        match sock, f with
        | Listening, Accepted => mkServer (base h) sock true
        | _, _ => mkServer (base h) sock false
        end
  end.

(** [UnicodeDecodeError] is a [ValueError]. *)
Definition _read (f : recv_fate) (h : host) : outcome host string :=
  if negb (client_socket h) then Returned "noop" h
  else
    match f with
    | NotReceived => Returned "noop" (mkServer (base h) (server_socket h) false)
    | Undecodable => Raise Py.ValueError h
    | Received command =>
        if String.length command =? 0
        then Returned "noop" (mkServer (base h) (server_socket h) false)
        else Returned command h
    end.

(** [super().read(command)] *)
Definition super_read (r : nat) (w : io) (command : string) (h : host)
  : outcome host value :=
  match read r w command (base h) with
  | Returned b b' =>
      Returned (VBool b) (mkServer b' (server_socket h) (client_socket h))
  | Raise e b' => Raise e (mkServer b' (server_socket h) (client_socket h))
  | Blocked b' => Blocked (mkServer b' (server_socket h) (client_socket h))
  end.

Definition read (r : nat) (w : io) (f : fates) (h : host)
  : outcome host value :=
  if interrupt f then
    Returned (VStr "noop")
      (mkServer (mkHost (set_done_flag true (manager (base h)))
                        (mode_favorites (base h)))
                (server_socket h) (client_socket h))
  else
    bind (_open (opening f) h) (fun _ h =>
    let h := _accept (accepting f) h in
    bind (_read (receiving f) h) (fun command h =>
    super_read r w command h)).

End InputServer.

(** ** The extension histogram *)

Module OsPath.

(** [str.rfind] of one character: the highest index where it stands, [-1]
    when it does not occur. *)
Fixpoint rfind_from (c : ascii) (s : string) (i best : Z) : Z :=
  match s with
  | EmptyString => best
  | String a r => rfind_from c r (i + 1) (if Ascii.eqb a c then i else best)
  end.

Definition rfind (s : string) (c : ascii) : Z := rfind_from c s 0 (-1).

(** The [while] loop of [genericpath._splitext], [n] positions from index
    [i] on: [true] when it runs to its end, all of them being dots. *)
Fixpoint leading_dots (n : nat) (p : string) (i : nat) : bool :=
  match n with
  | 0 => true
  | S n' =>
      match String.get i p with
      | Some c => if Ascii.eqb c "." then leading_dots n' p (S i) else false
      | None => false
      end
  end.

(** [os.path.splitext] as [ntpath] has it (the program runs on Windows):
    separators are the backslash (character 92) and the slash. *)
Definition splitext (p : string) : string * string :=
  let sepIndex := Z.max (rfind p "092") (rfind p "/") in
  let dotIndex := rfind p "." in
  if (sepIndex <? dotIndex)%Z
     && negb (leading_dots (Z.to_nat (dotIndex - (sepIndex + 1))) p
                           (Z.to_nat (sepIndex + 1)))
  then (substring 0 (Z.to_nat dotIndex) p,
        substring (Z.to_nat dotIndex)
                  (String.length p - Z.to_nat dotIndex) p)
  else (p, "").

End OsPath.

(** [histogram[extension] += 1] on a [defaultdict(int)]: the entries in
    insertion order, a new key going to the end with count 1. *)
Fixpoint increment (extension : string) (histogram : list (string * Z))
  : list (string * Z) :=
  match histogram with
  | [] => [(extension, 1%Z)]
  | (key, n) :: rest =>
      if String.eqb extension key then (key, (n + 1)%Z) :: rest
      else (key, n) :: increment extension rest
  end.

Definition histogram_extensions (filepaths : list string)
  : list (string * Z) :=
  fold_left (fun histogram filepath =>
               increment (snd (OsPath.splitext filepath)) histogram)
            filepaths [].

(** The count a histogram holds for a key, [0] for a key it does not hold. *)
Fixpoint count_of (key : string) (histogram : list (string * Z)) : Z :=
  match histogram with
  | [] => 0%Z
  | (k, n) :: rest => if String.eqb key k then n else count_of key rest
  end.

(** The sum of the counts a histogram holds. *)
Definition total (histogram : list (string * Z)) : Z :=
  fold_right Z.add 0%Z (map snd histogram).

(** The extension [histogram_extensions] files a path under. *)
Definition extension_of (filepath : string) : string :=
  snd (OsPath.splitext filepath).

(** ** Facts about calls and commands used in the statements below *)




(** The mode the [mode] branch of [InputHost.read] leaves: what the second
    word of the lower-cased command selects, the mode as it was when there
    is no second word or it is neither normal nor fav. *)
Definition mode_selected (command : string) (current : bool) : bool :=
  match Py.split command with
  | _ :: arg :: _ =>
      let arg2 := Py.lower arg in
      if String.eqb arg2 "normal" then false
      else if String.eqb arg2 "fav" then true
      else current
  | _ => current
  end.

(** ** Facts about states used in the statements below *)

(** No path is both in the Candidate Pool and in the Disliked Set, and the
    pool holds no path twice. *)
Definition pool_clean (s : State) : Prop :=
  NoDup (indexed s) /\
  forall path, In path (indexed s) -> ~ In path (disliked_filepaths s).

(** Both snapshot files hold the lists the manager has in memory. *)
Definition persisted (s : State) : Prop :=
  disk_disliked s = Some (disliked_filepaths s) /\
  disk_favorites s = Some (favorites_filepaths s).

(** Every path the manager shows, remembers or may choose is one of
    [paths]. *)
Definition within (paths : list string) (s : State) : Prop :=
  incl (indexed s) paths /\ incl (favorites_filepaths s) paths /\
  incl (history s) paths /\ In (chosen s) paths /\ In (desktop s) paths.

(** A console host on the fresh manager. *)
Definition fresh_console : InputHost := mkHost fresh false.

(** A server host that has not opened its socket yet. *)
Definition fresh_server : InputServer.host :=
  InputServer.mkServer fresh_console InputServer.NoSocket false.

(** * Properties *)

(** ** Lists and choices *)

Lemma remove_none x l : Py.remove x l = None <-> ~ In x l.
Proof.
  induction l as [|y l IH]; simpl.
  - split; [intros _ []|reflexivity].
  - destruct (String.eqb_spec x y) as [->|ne].
    + split; [discriminate|intros H; exfalso; apply H; now left].
    + destruct (Py.remove x l) as [l'|].
      * split; [discriminate|].
        intros H. exfalso.
        assert (Hn : ~ In x l) by (intros Hi; apply H; now right).
        apply IH in Hn. discriminate.
      * split; [|reflexivity].
        intros _ [e|Hi]; [now apply ne|].
        destruct IH as [IH _]. now apply IH.
Qed.

Lemma remove_some_in x l : In x l -> exists l', Py.remove x l = Some l'.
Proof.
  intros Hi. destruct (Py.remove x l) as [l'|] eqn:E; [now exists l'|].
  apply remove_none in E. contradiction.
Qed.


Lemma remove_incl x l l' y : Py.remove x l = Some l' -> In y l' -> In y l.
Proof.
  revert l'. induction l as [|z l IH]; simpl; intros l' H Hy; [discriminate|].
  destruct (String.eqb x z).
  - inversion H; subst. now right.
  - destruct (Py.remove x l) as [r|]; [|discriminate].
    inversion H; subst. destruct Hy as [->|Hy]; [now left|right; eauto].
Qed.

(** Removing the only occurrence leaves none. *)
Lemma remove_unique x l l' :
  NoDup l -> Py.remove x l = Some l' -> ~ In x l'.
Proof.
  revert l'. induction l as [|z l IH]; simpl; intros l' Hnd H; [discriminate|].
  inversion Hnd as [|? ? Hz Hl]; subst.
  destruct (String.eqb_spec x z) as [->|ne].
  - now inversion H; subst.
  - destruct (Py.remove x l) as [r|] eqn:E; [|discriminate].
    inversion H; subst. intros [e|Hi]; [now apply ne|].
    now apply (IH r).
Qed.

Lemma choice_in r l c : Py.choice r l = Some c -> In c l.
Proof. unfold Py.choice. apply nth_error_In. Qed.

Lemma choice_nil r : Py.choice r [] = None.
Proof. unfold Py.choice. apply nth_error_None. simpl. lia. Qed.


Lemma last_snoc (l : list string) x d : last (l ++ [x]) d = x.
Proof. apply last_last. Qed.

(** ** What each method does to the fields *)

Lemma emit_indexed line s : indexed (emit line s) = indexed s.
Proof. unfold emit. now destruct (file_out s). Qed.
Lemma emit_disliked line s :
  disliked_filepaths (emit line s) = disliked_filepaths s.
Proof. unfold emit. now destruct (file_out s). Qed.
Lemma emit_favorites line s :
  favorites_filepaths (emit line s) = favorites_filepaths s.
Proof. unfold emit. now destruct (file_out s). Qed.
Lemma emit_history line s : history (emit line s) = history s.
Proof. unfold emit. now destruct (file_out s). Qed.
Lemma emit_chosen line s : chosen (emit line s) = chosen s.
Proof. unfold emit. now destruct (file_out s). Qed.
Lemma emit_done line s : done (emit line s) = done s.
Proof. unfold emit. now destruct (file_out s). Qed.
Lemma emit_lock line s : lock (emit line s) = lock s.
Proof. unfold emit. now destruct (file_out s). Qed.
Lemma emit_desktop line s : desktop (emit line s) = desktop s.
Proof. unfold emit. now destruct (file_out s). Qed.
Lemma emit_disk_disliked line s : disk_disliked (emit line s) = disk_disliked s.
Proof. unfold emit. now destruct (file_out s). Qed.
Lemma emit_disk_favorites line s :
  disk_favorites (emit line s) = disk_favorites s.
Proof. unfold emit. now destruct (file_out s). Qed.
Lemma emit_period line s :
  update_period_minutes (emit line s) = update_period_minutes s.
Proof. unfold emit. now destruct (file_out s). Qed.

Create Rewrite HintDb fields.
#[local] Hint Rewrite emit_indexed emit_disliked emit_favorites emit_history
  emit_chosen emit_done emit_lock emit_desktop emit_disk_disliked
  emit_disk_favorites emit_period : fields.

(** The trace only grows, and [emit] adds no call to the background setter
    and no snapshot. *)
Lemma emit_trace line s :
  trace (emit line s) = trace s ++ (if file_out s then [Emit line] else []).
Proof. unfold emit. destruct (file_out s); simpl; now rewrite ?app_nil_r. Qed.

(** ** undo *)

(** With more than one entry, [undo] pops the History, shows the new top on
    the desktop and emits it; [self.chosen] is not assigned. *)
Lemma undo_pops s :
  lock s = false -> 1 < List.length (history s) ->
  let top := last (removelast (history s)) "" in
  exists s',
    undo s = Returned tt s' /\
    history s' = removelast (history s) /\
    desktop s' = top /\
    trace s' = trace s ++ SetWallpaper top
                            :: (if file_out s then [Emit top] else []) /\
    chosen s' = chosen s /\
    lock s' = false.
Proof.
  intros Hl Hlen top. unfold undo, acquire, undo_held, release. rewrite Hl. simpl.
  apply Nat.ltb_lt in Hlen. rewrite Hlen.
  eexists. split; [reflexivity|]. simpl.
  autorewrite with fields. simpl.
  rewrite emit_trace. simpl. rewrite <- app_assoc. simpl.
  repeat split; reflexivity.
Qed.

(** On the seed entry alone, [undo] changes nothing. *)
Lemma undo_seed s :
  lock s = false -> List.length (history s) <= 1 -> undo s = Returned tt s.
Proof.
  intros Hl Hlen. unfold undo, acquire, undo_held, release. rewrite Hl. simpl.
  apply Nat.ltb_ge in Hlen. rewrite Hlen.
  destruct s; simpl in *. now subst.
Qed.

(** ** pick *)

Lemma pick_returned r f s s' :
  pick r f s = Returned tt s' ->
  let pool := if f && (0 <? List.length (favorites_filepaths s))
              then favorites_filepaths s else indexed s in
  In (chosen s') pool /\
  history s' = history s ++ [chosen s'] /\
  desktop s' = chosen s' /\
  trace s' = trace s ++ (if file_out s then [Emit (chosen s')] else [])
                     ++ [SetWallpaper (chosen s')] /\
  indexed s' = indexed s /\
  disliked_filepaths s' = disliked_filepaths s /\
  favorites_filepaths s' = favorites_filepaths s /\
  disk_disliked s' = disk_disliked s /\
  lock s' = false.
Proof.
  unfold pick, acquire, pick_held, release.
  destruct (lock s) eqn:Hl; [discriminate|]. simpl.
  destruct (Py.choice r _) as [c|] eqn:Hc; [|discriminate].
  intros H. inversion H; subst; clear H. simpl.
  autorewrite with fields. simpl.
  rewrite emit_trace. simpl. rewrite <- app_assoc.
  apply choice_in in Hc.
  repeat split; try reflexivity. exact Hc.
Qed.

Lemma pick_top r f s s' : pick r f s = Returned tt s' -> chosen_is_top s'.
Proof.
  intros H. apply pick_returned in H.
  destruct H as (_ & Hh & _). unfold chosen_is_top. rewrite Hh.
  split; [apply last_snoc|]. now destruct (history s).
Qed.

(** ** dislike *)

Lemma dislike_section_returned w s s' :
  dislike_section w s = Returned tt s' ->
  w = IoOk /\
  Py.remove (chosen s) (indexed s) = Some (indexed s') /\
  history s' = match Py.remove (chosen s) (history s) with
               | Some h => h
               | None => history s
               end /\
  disliked_filepaths s' = disliked_filepaths s ++ [chosen s] /\
  disk_disliked s' = Some (disliked_filepaths s') /\
  favorites_filepaths s' = favorites_filepaths s /\
  chosen s' = chosen s /\
  lock s' = false.
Proof.
  unfold dislike_section, acquire, dislike_held, release.
  destruct (lock s) eqn:Hl; [discriminate|]. simpl.
  autorewrite with fields. simpl.
  destruct (Py.remove (chosen s) (history s)) as [h|] eqn:Hh; simpl;
    autorewrite with fields; simpl;
    (destruct (Py.remove (chosen s) (indexed s)) as [pool|] eqn:Hp;
     [|discriminate]);
    destruct w; simpl; try discriminate;
    intros H; inversion H; subst; clear H; simpl;
    autorewrite with fields; simpl; repeat split; reflexivity.
Qed.

(** What holds whenever [dislike] returns: the outgoing path is recorded and
    persisted, one occurrence of it left the pool and (if there was one) the
    History, and the final [pick(favorites=False)] chose from what is left
    of the pool. *)
Lemma dislike_returned w r s s' :
  dislike w r s = Returned tt s' ->
  disliked_filepaths s' = disliked_filepaths s ++ [chosen s] /\
  disk_disliked s' = Some (disliked_filepaths s') /\
  Py.remove (chosen s) (indexed s) = Some (indexed s') /\
  history s' = match Py.remove (chosen s) (history s) with
               | Some h => h
               | None => history s
               end ++ [chosen s'] /\
  In (chosen s') (indexed s') /\
  desktop s' = chosen s'.
Proof.
  unfold dislike.
  destruct (dislike_section w s) as [[] s1| |] eqn:Hd; simpl; try discriminate.
  intros Hp. apply dislike_section_returned in Hd.
  destruct Hd as (_ & Hi & Hh & Hdl & Hdk & _).
  apply pick_returned in Hp. simpl in Hp.
  destruct Hp as (Hin & Hh' & Hdesk & _ & Hi' & Hdl' & _ & Hdk' & _).
  rewrite Hdl', Hdk', Hi', Hh', Hh. repeat split; try assumption; congruence.
Qed.

(** When the outgoing path occurred once in the pool and at most once in the
    History, it is in neither afterwards. *)
Lemma dislike_absent w r s s' :
  NoDup (indexed s) -> NoDup (history s) ->
  dislike w r s = Returned tt s' ->
  ~ In (chosen s) (indexed s') /\ ~ In (chosen s) (history s').
Proof.
  intros Hpool Hhist H. apply dislike_returned in H.
  destruct H as (_ & _ & Hi & Hh & Hin & _).
  assert (Hout : ~ In (chosen s) (indexed s')) by exact (remove_unique _ _ _ Hpool Hi).
  split; [exact Hout|]. rewrite Hh. intros Hc.
  apply in_app_or in Hc. destruct Hc as [Hc|[Hc|[]]].
  - destruct (Py.remove (chosen s) (history s)) as [h|] eqn:E.
    + exact (remove_unique _ _ _ Hhist E Hc).
    + apply remove_none in E. contradiction.
  - apply Hout. now rewrite <- Hc.
Qed.

Lemma dislike_top w r s s' : dislike w r s = Returned tt s' -> chosen_is_top s'.
Proof.
  unfold dislike.
  destruct (dislike_section w s) as [[] s1| |]; simpl; try discriminate.
  apply pick_top.
Qed.

(** ** favorite *)

Lemma favorite_returned w s s' :
  favorite w s = Returned tt s' ->
  w = IoOk /\
  favorites_filepaths s' = favorites_filepaths s ++ [chosen s] /\
  disk_favorites s' = Some (favorites_filepaths s') /\
  history s' = history s /\
  chosen s' = chosen s /\
  indexed s' = indexed s /\
  lock s' = false.
Proof.
  unfold favorite, acquire, favorite_held, release.
  destruct (lock s) eqn:Hl; [discriminate|]. simpl.
  destruct w; simpl; try discriminate.
  intros H; inversion H; subst; clear H; simpl.
  autorewrite with fields. simpl. repeat split; reflexivity.
Qed.

(** ** Chosen and the top of the History *)

Lemma init_top files exts disliked favs wallpaper period sink :
  chosen_is_top (init files exts disliked favs wallpaper period sink).
Proof. split; [reflexivity|discriminate]. Qed.

Lemma exec_top o s s' :
  is_undo o = false -> chosen_is_top s -> exec o s = Returned tt s' ->
  chosen_is_top s'.
Proof.
  destruct o as [f r|w r| |w| |]; simpl; intros Hu Ht H; try discriminate.
  - eapply pick_top; eauto.
  - eapply dislike_top; eauto.
  - apply favorite_returned in H. destruct H as (_ & _ & _ & Hh & Hc & _).
    unfold chosen_is_top in *. now rewrite Hh, Hc.
  - now inversion H; subst.
  - unfold set_done in H. inversion H; subst. exact Ht.
Qed.

(** Every sequence of calls that has no [undo] in it keeps Chosen on top of
    the History. *)
Lemma top_kept_without_undo ops : forall s s',
  forallb (fun o => negb (is_undo o)) ops = true ->
  chosen_is_top s -> exec_all ops s = Returned tt s' -> chosen_is_top s'.
Proof.
  induction ops as [|o ops IH]; simpl; intros s s' Hn Ht H.
  - now inversion H; subst.
  - apply andb_prop in Hn. destruct Hn as [Ho Hn].
    apply negb_true_iff in Ho.
    destruct (exec o s) as [[] s1| |] eqn:E; simpl in H; try discriminate.
    apply (IH s1 s' Hn); [exact (exec_top o s s1 Ho Ht E)|exact H].
Qed.

(** C1, at the input where the code departs from it.  On a fresh manager,
    [pick] followed by [undo] pops the History back to the seed entry and
    puts the seed on the desktop, as claimed, but [undo] never assigns
    [self.chosen]: Chosen still names the popped picture and is not the last
    element of the History. *)
Theorem undo_leaves_chosen_stale :
  exists s1 s2,
    pick 0 false fresh = Returned tt s1 /\
    1 < List.length (history s1) /\
    undo s1 = Returned tt s2 /\
    history s2 = ["/w/seed.png"] /\
    desktop s2 = "/w/seed.png" /\
    In (SetWallpaper "/w/seed.png") (trace s2) /\
    chosen s2 = "/w/a.jpg" /\
    ~ chosen_is_top s2.
Proof.
  exists (state_of (pick 0 false fresh)).
  exists (state_of (undo (state_of (pick 0 false fresh)))).
  unfold chosen_is_top. vm_compute.
  repeat split; try reflexivity; try lia.
  - right. right. now left.
  - intros [H _]. discriminate H.
Qed.

(** C2, at the input where the code departs from it.  After the picks a, b,
    a the History holds a twice.  [dislike] returns, records a in the
    Disliked Set and on disk, removes it from the pool and re-picks, but
    [list.remove] took only the older occurrence out of the History: the
    disliked path is still there, and the next [undo] puts it back on the
    desktop. *)
Theorem dislike_keeps_repeated_history_entry :
  exists s s' s'',
    exec_all [Pick false 0; Pick false 1; Pick false 0] fresh = Returned tt s /\
    chosen s = "/w/a.jpg" /\
    history s = ["/w/seed.png"; "/w/a.jpg"; "/w/b.jpg"; "/w/a.jpg"] /\
    dislike IoOk 1 s = Returned tt s' /\
    disliked_filepaths s' = ["/w/a.jpg"] /\
    disk_disliked s' = Some ["/w/a.jpg"] /\
    indexed s' = ["/w/b.jpg"; "/w/c.jpg"] /\
    chosen s' = "/w/c.jpg" /\
    history s' = ["/w/seed.png"; "/w/b.jpg"; "/w/a.jpg"; "/w/c.jpg"] /\
    In (chosen s) (history s') /\
    undo s' = Returned tt s'' /\
    desktop s'' = "/w/a.jpg".
Proof.
  pose (s := state_of (exec_all [Pick false 0; Pick false 1; Pick false 0]
                                fresh)).
  exists s, (state_of (dislike IoOk 1 s)),
    (state_of (undo (state_of (dislike IoOk 1 s)))).
  vm_compute. repeat split; try reflexivity.
  right. right. now left.
Qed.

(** ** The length of the History *)

Lemma exec_history o s s' :
  1 <= List.length (history s) -> exec o s = Returned tt s' ->
  1 <= List.length (history s').
Proof.
  destruct o as [f r|w r| |w| |]; simpl; intros Hlen H.
  - apply pick_returned in H. destruct H as (_ & Hh & _).
    rewrite Hh, length_app. simpl. lia.
  - apply dislike_returned in H. destruct H as (_ & _ & _ & Hh & _).
    rewrite Hh, length_app. simpl. lia.
  - unfold undo, acquire, undo_held, release in H.
    destruct (lock s); [discriminate|]. simpl in H.
    destruct (1 <? List.length (history s)) eqn:E;
      inversion H; subst; clear H; simpl; autorewrite with fields; simpl.
    + apply Nat.ltb_lt in E.
      destruct (history s) as [|x l] using rev_ind; [simpl in E; lia|].
      rewrite removelast_last. rewrite length_app in E. simpl in E. lia.
    + exact Hlen.
  - apply favorite_returned in H. destruct H as (_ & _ & _ & Hh & _).
    now rewrite Hh.
  - now inversion H; subst.
  - unfold set_done in H. now inversion H; subst.
Qed.


Lemma exec_all_history ops : forall s s',
  1 <= List.length (history s) ->
  exec_all ops s = Returned tt s' ->
  1 <= List.length (history s').
Proof.
  induction ops as [|o ops IH]; simpl; intros s s' Hlen H.
  - now inversion H; subst.
  - destruct (exec o s) as [[] s1| |] eqn:E; simpl in H; try discriminate.
    apply (IH s1 s'); [exact (exec_history o s s1 Hlen E)|exact H].
Qed.


(** ** The command parser *)

Lemma lower_char_idem c : Py.lower_char (Py.lower_char c) = Py.lower_char c.
Proof.
  destruct c as [[] [] [] [] [] [] [] []]; vm_compute; reflexivity.
Qed.

Lemma lower_idem c : Py.lower (Py.lower c) = Py.lower c.
Proof.
  induction c as [|a c IH]; simpl; [reflexivity|].
  now rewrite lower_char_idem, IH.
Qed.

(** [read] looks at its command through [str.lower] only. *)
Lemma read_lower r w c h : read r w (Py.lower c) h = read r w c h.
Proof. unfold read. cbv zeta. now rewrite lower_idem. Qed.

Lemma split_from_cons cur s :
  cur <> "" -> exists x l, Py.split_from cur s = x :: l.
Proof.
  revert cur. induction s as [|a s IH]; simpl; intros cur Hc.
  - destruct cur; [congruence|]. eauto.
  - destruct (Py.isspace a).
    + destruct cur; [congruence|]. eauto.
    + apply IH. now destruct cur.
Qed.

Lemma read_mode r w c h :
  Py.startswith (Py.lower c) "mode" = true ->
  exists m, read r w c h = Returned true (mkHost (manager h) m).
Proof.
  intros H. unfold read. cbv zeta. unfold Py.startswith in *.
  destruct (Py.lower c) as [|c1 [|c2 [|c3 [|c4 rest]]]]; simpl in H;
    repeat match type of H with
           | (if ?d then _ else _) = true => destruct d; [subst|discriminate]
           | _ => try discriminate
           end.
  clear H. simpl (Py.mem _ _). cbv iota.
  replace (prefix "mode" (String "m" (String "o" (String "d" (String "e" rest)))))
    with true by (simpl; repeat (destruct (ascii_dec _ _); [|congruence]);
                  now destruct rest).
  unfold Py.split. simpl Py.split_from.
  destruct (split_from_cons "mode" rest) as (x & l & E); [discriminate|].
  rewrite E. destruct l as [|arg l].
  - exists (mode_favorites h). now destruct h.
  - destruct (String.eqb (Py.lower arg) "normal"); [eauto|].
    destruct (String.eqb (Py.lower arg) "fav"); [eauto|].
    exists (mode_favorites h). now destruct h.
Qed.

Lemma read_stop r w c h :
  In (Py.lower c) ["exit"; "quit"; "done"] ->
  read r w c h
  = Returned false (mkHost (set_done_flag true (manager h)) (mode_favorites h)).
Proof.
  intros H. unfold read. cbv zeta.
  destruct H as [<-|[<-|[<-|[]]]]; reflexivity.
Qed.

Lemma prefix_cases p v :
  In v ["skip"; "undo"; "next"; "list"; "fav"] -> p <> "" ->
  String.prefix p v = true ->
  In (p, v)
     [("s", "skip"); ("sk", "skip"); ("ski", "skip"); ("skip", "skip");
      ("u", "undo"); ("un", "undo"); ("und", "undo"); ("undo", "undo");
      ("n", "next"); ("ne", "next"); ("nex", "next"); ("next", "next");
      ("l", "list"); ("li", "list"); ("lis", "list"); ("list", "list");
      ("f", "fav"); ("fa", "fav"); ("fav", "fav")].
Proof.
  intros Hv Hp H.
  repeat (destruct Hv as [<-|Hv]); try contradiction;
  repeat (destruct p as [|? p]; [try congruence; simpl; tauto|];
          simpl in H;
          match type of H with
          | (if ?d then _ else _) = true => destruct d; [subst|discriminate]
          | _ => try discriminate
          end).
Qed.

Lemma read_prefix r w h p v :
  In v ["skip"; "undo"; "next"; "list"; "fav"] -> p <> "" ->
  String.prefix p v = true -> read r w p h = read r w v h.
Proof.
  intros Hv Hp H. pose proof (prefix_cases p v Hv Hp H) as Hc.
  simpl in Hc.
  repeat (destruct Hc as [Hc|Hc]; [inversion Hc; subst; reflexivity|]).
  contradiction.
Qed.


(** C4, as stated, fails: a proper prefix of exit, quit or done does not
    stop the host, a proper prefix of mode does not select the mode, and a
    command with surrounding white space is not the command without it. *)
Lemma read_whole_stop_verb_and_no_trim :
  read 0 IoOk "ex" console <> read 0 IoOk "exit" console /\
  read 0 IoOk "q" console <> read 0 IoOk "quit" console /\
  read 0 IoOk "don" console <> read 0 IoOk "done" console /\
  read 0 IoOk "mo fav" console <> read 0 IoOk "mode fav" console /\
  read 0 IoOk " skip" console <> read 0 IoOk "skip" console /\
  read 0 IoOk "exit " console <> read 0 IoOk "exit" console.
Proof. vm_compute. repeat split; discriminate. Qed.


(** ** Failing snapshot writes *)

Lemma snoc_neq (l : list string) x : l <> l ++ [x].
Proof.
  intros E. apply (f_equal (@List.length string)) in E.
  rewrite length_app in E. simpl in E. lia.
Qed.

(** [favorite] when the write fails: the error reaches the caller, the lock
    is free again, the Favorites List keeps the appended entry and the file
    does not hold it. *)
Lemma favorite_raises w s :
  lock s = false -> w <> IoOk ->
  exists s',
    favorite w s = Raise Py.OSError s' /\
    lock s' = false /\
    favorites_filepaths s' = favorites_filepaths s ++ [chosen s] /\
    disk_favorites s' = match w with
                        | IoFailWrite => None
                        | _ => disk_favorites s
                        end /\
    chosen s' = chosen s /\ history s' = history s.
Proof.
  intros Hl Hw. unfold favorite, acquire, favorite_held, release.
  rewrite Hl. simpl.
  destruct w; [congruence| |]; simpl; eexists; (split; [reflexivity|]);
    simpl; autorewrite with fields; simpl; repeat split; reflexivity.
Qed.

(** [dislike] when the write fails: the error reaches the caller, the lock
    is free again, the three lists keep what was done to them, the file does
    not hold the new Disliked Set, and nothing of the final [pick] happened. *)
Lemma dislike_raises w r s pool :
  lock s = false -> w <> IoOk ->
  Py.remove (chosen s) (indexed s) = Some pool ->
  exists s',
    dislike w r s = Raise Py.OSError s' /\
    lock s' = false /\
    disliked_filepaths s' = disliked_filepaths s ++ [chosen s] /\
    indexed s' = pool /\
    history s' = match Py.remove (chosen s) (history s) with
                 | Some h => h
                 | None => history s
                 end /\
    disk_disliked s' = match w with
                       | IoFailWrite => None
                       | _ => disk_disliked s
                       end /\
    chosen s' = chosen s /\
    desktop s' = desktop s /\
    trace s' = trace s ++ (if file_out s then [Emit (chosen s)] else []).
Proof.
  intros Hl Hw Hp.
  unfold dislike, dislike_section, acquire, dislike_held, release.
  rewrite Hl. simpl.
  autorewrite with fields. simpl.
  destruct (Py.remove (chosen s) (history s)) as [h|] eqn:Hh; simpl;
    autorewrite with fields; simpl; rewrite Hp;
    (destruct w; [congruence| |]); simpl;
    eexists; (split; [reflexivity|]); simpl; autorewrite with fields; simpl;
    rewrite ?emit_trace; repeat split; reflexivity.
Qed.

(** C7.  When the snapshot write inside [favorite] or [dislike] fails, the
    call ends with the error of the write, raised to the caller, and the
    Manager's lock is free on that exit path. *)
Theorem write_failure_releases_lock w r s :
  lock s = false -> w <> IoOk ->
  (exists s', favorite w s = Raise Py.OSError s' /\ lock s' = false) /\
  (In (chosen s) (indexed s) ->
   exists s', dislike w r s = Raise Py.OSError s' /\ lock s' = false).
Proof.
  intros Hl Hw. split.
  - destruct (favorite_raises w s Hl Hw) as (s' & H & Hl' & _). eauto.
  - intros Hin. destruct (remove_some_in _ _ Hin) as (pool & Hp).
    destruct (dislike_raises w r s pool Hl Hw Hp) as (s' & H & Hl' & _). eauto.
Qed.

Lemma write_failure_releases_lock_witness :
  lock fresh_inside = false /\ IoFailWrite <> IoOk /\
  In (chosen fresh_inside) (indexed fresh_inside) /\
  (exists s', favorite IoFailWrite fresh_inside = Raise Py.OSError s'
              /\ lock s' = false) /\
  (exists s', dislike IoFailWrite 0 fresh_inside = Raise Py.OSError s'
              /\ lock s' = false).
Proof.
  assert (H1 : lock fresh_inside = false) by reflexivity.
  assert (H2 : IoFailWrite <> IoOk) by discriminate.
  assert (H3 : In (chosen fresh_inside) (indexed fresh_inside))
    by (vm_compute; tauto).
  pose proof (write_failure_releases_lock IoFailWrite 0 fresh_inside H1 H2)
    as [F D].
  exact (conj H1 (conj H2 (conj H3 (conj F (D H3))))).
Defined.

(** C10.  When the snapshot write raises, the in-memory state keeps what the
    call had already done: the Favorites List keeps the appended Chosen; the
    Disliked Set keeps the appended Chosen, the Candidate Pool and the
    History keep the removal.  A file that matched the list before the call
    does not match it afterwards.  In [dislike] the final [pick] is skipped:
    Chosen and the desktop are as before and nothing was appended to the
    History or sent to the background setter. *)
Theorem write_failure_keeps_mutation w r s :
  lock s = false -> w <> IoOk ->
  (exists s',
     favorite w s = Raise Py.OSError s' /\
     favorites_filepaths s' = favorites_filepaths s ++ [chosen s] /\
     (disk_favorites s = Some (favorites_filepaths s) ->
      disk_favorites s' <> Some (favorites_filepaths s'))) /\
  (forall pool,
     Py.remove (chosen s) (indexed s) = Some pool ->
     exists s',
       dislike w r s = Raise Py.OSError s' /\
       disliked_filepaths s' = disliked_filepaths s ++ [chosen s] /\
       indexed s' = pool /\
       history s' = match Py.remove (chosen s) (history s) with
                    | Some h => h
                    | None => history s
                    end /\
       (disk_disliked s = Some (disliked_filepaths s) ->
        disk_disliked s' <> Some (disliked_filepaths s')) /\
       chosen s' = chosen s /\
       desktop s' = desktop s /\
       trace s' = trace s ++ (if file_out s then [Emit (chosen s)] else [])).
Proof.
  intros Hl Hw. split.
  - destruct (favorite_raises w s Hl Hw) as (s' & H & _ & Hf & Hd & _).
    exists s'. split; [exact H|]. split; [exact Hf|].
    intros Hs. rewrite Hd, Hf.
    destruct w; [congruence| |discriminate].
    rewrite Hs. intros E. inversion E as [E']. now apply snoc_neq in E'.
  - intros pool Hp.
    destruct (dislike_raises w r s pool Hl Hw Hp)
      as (s' & H & _ & Hdl & Hi & Hh & Hd & Hc & Hdesk & Ht).
    exists s'. repeat split; try assumption.
    intros Hs. rewrite Hd, Hdl.
    destruct w; [congruence| |discriminate].
    rewrite Hs. intros E. inversion E as [E']. now apply snoc_neq in E'.
Qed.

Lemma write_failure_keeps_mutation_witness :
  lock fresh_inside = false /\ IoFailOpen <> IoOk /\
  Py.remove (chosen fresh_inside) (indexed fresh_inside)
  = Some ["/w/b.jpg"; "/w/c.jpg"] /\
  disk_favorites fresh_inside = Some (favorites_filepaths fresh_inside) /\
  disk_disliked fresh_inside = Some (disliked_filepaths fresh_inside) /\
  (exists s', favorite IoFailOpen fresh_inside = Raise Py.OSError s' /\
              favorites_filepaths s' = [] ++ ["/w/a.jpg"] /\
              disk_favorites s' <> Some (favorites_filepaths s')) /\
  (exists s', dislike IoFailOpen 0 fresh_inside = Raise Py.OSError s' /\
              indexed s' = ["/w/b.jpg"; "/w/c.jpg"] /\
              disk_disliked s' <> Some (disliked_filepaths s') /\
              chosen s' = "/w/a.jpg").
Proof.
  assert (H1 : lock fresh_inside = false) by reflexivity.
  assert (H2 : IoFailOpen <> IoOk) by discriminate.
  assert (H3 : Py.remove (chosen fresh_inside) (indexed fresh_inside)
               = Some ["/w/b.jpg"; "/w/c.jpg"]) by (vm_compute; reflexivity).
  assert (H4 : disk_favorites fresh_inside
               = Some (favorites_filepaths fresh_inside)) by reflexivity.
  assert (H5 : disk_disliked fresh_inside
               = Some (disliked_filepaths fresh_inside)) by reflexivity.
  pose proof (write_failure_keeps_mutation IoFailOpen 0 fresh_inside H1 H2)
    as [F D].
  destruct F as (s1 & F1 & F2 & F3).
  destruct (D _ H3) as (s2 & D1 & _ & D3 & _ & D5 & D6 & _).
  refine (conj H1 (conj H2 (conj H3 (conj H4 (conj H5 (conj _ _)))))).
  - exists s1. exact (conj F1 (conj F2 (F3 H4))).
  - exists s2. exact (conj D1 (conj D3 (conj (D5 H5) D6))).
Defined.

(** ** A lock that stays held *)

Lemma exec_locked o s :
  lock s = true ->
  lock (state_of (exec o s)) = true /\
  (locking o = true -> exec o s = Blocked s).
Proof.
  intros Hl.
  destruct o as [f r|w r| |w| |]; simpl;
    unfold pick, dislike, dislike_section, undo, favorite, acquire;
    rewrite ?Hl; simpl;
    rewrite ?Hl; split; solve [reflexivity | discriminate].
Qed.


(** [dislike] with Chosen outside the pool: the [ValueError] of
    [self.indexed.remove] ends the call with the lock held. *)
Lemma dislike_outside_pool w r s :
  lock s = false -> ~ In (chosen s) (indexed s) ->
  exists s',
    dislike w r s = Raise Py.ValueError s' /\
    history s' = match Py.remove (chosen s) (history s) with
                 | Some h => h
                 | None => history s
                 end /\
    indexed s' = indexed s /\
    disliked_filepaths s' = disliked_filepaths s /\
    disk_disliked s' = disk_disliked s /\
    chosen s' = chosen s /\
    desktop s' = desktop s /\
    trace s' = trace s ++ (if file_out s then [Emit (chosen s)] else []) /\
    lock s' = true.
Proof.
  intros Hl Hout. apply remove_none in Hout.
  unfold dislike, dislike_section, acquire, dislike_held, release.
  rewrite Hl. simpl.
  autorewrite with fields. simpl.
  destruct (Py.remove (chosen s) (history s)) as [h|] eqn:Hh; simpl;
    autorewrite with fields; simpl; rewrite Hout; simpl;
    eexists; (split; [reflexivity|]); simpl; autorewrite with fields; simpl;
    rewrite ?emit_trace; repeat split; reflexivity.
Qed.

(** The error is not caught on its way out of the command parser. *)
Lemma read_skip_outside_pool r w c h :
  Py.lower c = "skip" ->
  lock (manager h) = false ->
  ~ In (chosen (manager h)) (indexed (manager h)) ->
  exists s',
    read r w c h = Raise Py.ValueError (mkHost s' (mode_favorites h)) /\
    lock s' = true.
Proof.
  intros Hc Hl Hout.
  destruct (dislike_outside_pool w r (manager h) Hl Hout)
    as (s' & H & _ & _ & _ & _ & _ & _ & _ & Hk).
  exists s'. split; [|exact Hk].
  unfold read. cbv zeta. rewrite Hc.
  change (Py.mem "skip" ["s"; "sk"; "ski"; "skip"]) with true. cbv iota.
  now rewrite H.
Qed.


(** ** Which operations take the lock *)

(** C6, as stated, fails: [get_chosen] and [set_done] never call
    [self.lock.acquire()]; they run to their end while the lock is held. *)
Lemma get_chosen_and_set_done_skip_the_lock :
  ~ (forall o, waits_for_lock o).
Proof.
  intros H. specialize (H GetChosen (set_lock true fresh) eq_refl).
  vm_compute in H. discriminate H.
Qed.

Lemma bind_returned (m : outcome State unit) :
  bind m (fun _ s => Returned tt s) = m.
Proof. destruct m as [[] s| |]; reflexivity. Qed.

(** A call of a lock-taking method is its critical sections, one after the
    other, each behind its own [acquire]. *)
Lemma exec_sections o s :
  locking o = true -> exec o s = run_sections (sections o) s.
Proof.
  destruct o as [f r|w r| |w| |]; intros Ho; try discriminate;
    cbn [exec sections run_sections held];
    unfold pick, dislike, dislike_section, undo, favorite;
    destruct (acquire s) as [[] s1| |]; cbn [bind]; try reflexivity;
    rewrite ?bind_returned; try reflexivity.
  destruct (dislike_held w s1) as [[] s2| |]; cbn [bind]; try reflexivity.
  unfold pick. destruct (acquire s2) as [[] s3| |]; cbn [bind];
    now rewrite ?bind_returned.
Qed.

Lemma exec_unlocked o s :
  locking o = false ->
  exists s', exec o s = Returned tt s' /\ lock s' = lock s.
Proof.
  destruct o; simpl; intros Ho; try discriminate; eexists; split; reflexivity.
Qed.

Lemma holding_upd i p t j :
  holding (upd i p t j) = true ->
  (j = i /\ holding p = true) \/ (j <> i /\ holding (t j) = true).
Proof.
  unfold upd. destruct (Nat.eqb_spec j i); intros H; [left|right]; tauto.
Qed.

Lemma step_exclusive s t s' t' :
  exclusive s t -> step s t s' t' -> exclusive s' t'.
Proof.
  intros [Hlock Hone] Hstep.
  destruct Hstep as [i o s t Hi Ho|i o s t Hi Ho|i c k s s' t Hi Ha
                    |i c k s s' t Hi Hb|i c k e s s' t Hi Hb].
  - split.
    + intros j Hj. apply holding_upd in Hj.
      destruct Hj as [[_ Hj]|[_ Hj]]; [discriminate|eauto].
    + intros j j' Hj Hj'. apply holding_upd in Hj, Hj'.
      destruct Hj as [[_ Hj]|[_ Hj]]; [discriminate|].
      destruct Hj' as [[_ Hj']|[_ Hj']]; [discriminate|eauto].
  - destruct (exec_unlocked o s Ho) as (s' & E & Hl). rewrite E. simpl.
    split; [|exact Hone]. intros j Hj. rewrite Hl. eauto.
  - unfold acquire in Ha. destruct (lock s) eqn:Hl; [discriminate|].
    inversion Ha; subst; clear Ha.
    assert (Hnone : forall j, holding (t j) = true -> False).
    { intros j Hj. apply Hlock in Hj. congruence. }
    split.
    + intros _ _. reflexivity.
    + intros j j' Hj Hj'. apply holding_upd in Hj, Hj'.
      destruct Hj as [[-> _]|[_ Hj]]; [|now apply Hnone in Hj].
      destruct Hj' as [[-> _]|[_ Hj']]; [reflexivity|now apply Hnone in Hj'].
  - assert (Hnone : forall j, holding (upd i (next k) t j) = true -> False).
    { intros j Hj. apply holding_upd in Hj.
      destruct Hj as [[_ Hj]|[Hne Hj]]; [now destruct k|].
      apply Hne. apply Hone; [exact Hj|]. now rewrite Hi. }
    split; [intros j Hj|intros j j' Hj]; now apply Hnone in Hj.
  - assert (Hnone : forall j, holding (upd i (Gone e) t j) = true -> False).
    { intros j Hj. apply holding_upd in Hj.
      destruct Hj as [[_ Hj]|[Hne Hj]]; [discriminate|].
      apply Hne. apply Hone; [exact Hj|]. now rewrite Hi. }
    split; [intros j Hj|intros j j' Hj]; now apply Hnone in Hj.
Qed.

Lemma reachable_exclusive s0 s t :
  lock s0 = false -> reachable s0 s t -> exclusive s t.
Proof.
  intros H0 Hr. induction Hr as [|s t s' t' _ IH Hstep].
  - split; [intros i Hi|intros i j Hi]; discriminate.
  - exact (step_exclusive s t s' t' IH Hstep).
Qed.

Lemma upd_same i p t : upd i p t i = p.
Proof. unfold upd. now rewrite Nat.eqb_refl. Qed.

Lemma upd_other i p t j : j <> i -> upd i p t j = t j.
Proof. unfold upd. intros H. now destruct (Nat.eqb_spec j i). Qed.

(** A thread left alone goes through the sections of its call as
    [run_sections] does. *)
Lemma thread_runs_sections s0 i k : forall s s' t,
  k <> [] -> t i = Waiting k ->
  run_sections k s = Returned tt s' ->
  reachable s0 s t ->
  exists t', reachable s0 s' t' /\ t' i = Idle /\
             forall j, j <> i -> t' j = t j.
Proof.
  induction k as [|c k IH]; intros s s' t Hk Hi Hrun Hr; [congruence|].
  cbn [run_sections] in Hrun.
  destruct (acquire s) as [[] s1| |] eqn:Ha; cbn [bind] in Hrun;
    try discriminate.
  destruct (held c s1) as [[] s2| |] eqn:Hc; cbn [bind] in Hrun;
    try discriminate.
  pose (t1 := upd i (Holding c k) t).
  pose (t2 := upd i (next k) t1).
  assert (H1 : reachable s0 s1 t1).
  { apply (reach_step s0 s t); [exact Hr|].
    now apply (step_acquire i c k). }
  assert (H2 : reachable s0 s2 t2).
  { apply (reach_step s0 s1 t1); [exact H1|].
    apply (step_section i c k); [apply upd_same|exact Hc]. }
  assert (Hframe : forall j, j <> i -> t2 j = t j).
  { intros j Hj. unfold t2, t1. now rewrite !upd_other. }
  destruct k as [|c' k].
  - cbn [run_sections] in Hrun. inversion Hrun; subst.
    exists t2. split; [exact H2|]. split; [apply upd_same|exact Hframe].
  - destruct (IH s2 s' t2) as (t' & Hr' & Hi' & Hf');
      [discriminate|apply upd_same|exact Hrun|exact H2|].
    exists t'. split; [exact Hr'|]. split; [exact Hi'|].
    intros j Hj. rewrite Hf' by exact Hj. now apply Hframe.
Qed.

(** So a call that returns when run alone, [exec o s = Returned tt s'], is
    a run of the calling thread from [s] to [s']. *)
Lemma thread_runs_call s0 i o s s' t :
  locking o = true -> t i = Idle ->
  exec o s = Returned tt s' ->
  reachable s0 s t ->
  exists t', reachable s0 s' t' /\ t' i = Idle /\
             forall j, j <> i -> t' j = t j.
Proof.
  intros Ho Hi He Hr. rewrite exec_sections in He by exact Ho.
  destruct (thread_runs_sections s0 i (sections o) s s'
              (upd i (Waiting (sections o)) t))
    as (t' & Hr' & Hi' & Hf').
  - now destruct o.
  - apply upd_same.
  - exact He.
  - apply (reach_step s0 s t); [exact Hr|]. now apply step_call.
  - exists t'. split; [exact Hr'|]. split; [exact Hi'|].
    intros j Hj. rewrite Hf' by exact Hj. now apply upd_other.
Qed.

(** While one thread is inside [pick], holding the lock, another thread
    runs [get_chosen] to its end. *)
Lemma get_chosen_during_pick :
  reachable fresh (set_lock true fresh) picking /\
  holding (picking 0) = true /\
  picking 1 = Idle /\
  step (set_lock true fresh) picking
       (state_of (exec GetChosen (set_lock true fresh))) picking.
Proof.
  assert (Hr : reachable fresh (set_lock true fresh) picking).
  { apply (reach_step fresh fresh (upd 0 (Waiting [InPick false 0])
                                        (fun _ => Idle))).
    - apply (reach_step fresh fresh (fun _ => Idle)); [apply reach_init|].
      exact (step_call 0 (Pick false 0) fresh (fun _ => Idle) eq_refl eq_refl).
    - apply (step_acquire 0 (InPick false 0) []); reflexivity. }
  split; [exact Hr|]. split; [reflexivity|]. split; [reflexivity|].
  exact (step_unlocked 1 GetChosen (set_lock true fresh) picking
           eq_refl eq_refl).
Qed.

(** C6, amended.  [pick], [dislike], [undo] and [favorite] each acquire the
    single Manager mutex: called while it is held they wait, and when they
    return they have released it.  They are mutually exclusive: however the
    threads interleave, at most one of them is inside a critical section of
    these four.  [get_chosen] and [set_done] do not acquire the mutex: they
    return whether or not it is held, and leave it as it was. *)
Theorem lock_taken_by_the_four_mutators :
  (forall o, locking o = true ->
     waits_for_lock o /\
     forall s s', exec o s = Returned tt s' ->
                  lock s = false /\ lock s' = false) /\
  (forall o, locking o = false ->
     forall s, exists s', exec o s = Returned tt s' /\ lock s' = lock s) /\
  (forall s0 s t, lock s0 = false -> reachable s0 s t ->
     forall i j, holding (t i) = true -> holding (t j) = true -> i = j).
Proof.
  split; [|split].
  - intros o Ho. split.
    + intros s Hl. now apply exec_locked.
    + intros s s' H. destruct (lock s) eqn:Hl.
      * destruct (exec_locked o s Hl) as [_ Hb]. rewrite (Hb Ho) in H.
        discriminate.
      * split; [reflexivity|].
        destruct o as [f r|w r| |w| |]; simpl in *; try discriminate.
        -- now apply pick_returned in H.
        -- unfold dislike in H.
           destruct (dislike_section w s) as [[] s1| |]; simpl in H;
             try discriminate.
           now apply pick_returned in H.
        -- unfold undo, acquire, undo_held, release in H. rewrite Hl in H.
           now inversion H; subst.
        -- now apply favorite_returned in H.
  - intros o Ho s. now apply exec_unlocked.
  - intros s0 s t H0 Hr. exact (proj2 (reachable_exclusive s0 s t H0 Hr)).
Qed.

Lemma lock_taken_by_the_four_mutators_witness :
  (locking Undo = true /\ lock (set_lock true fresh) = true /\
   exec Undo (set_lock true fresh) = Blocked (set_lock true fresh)) /\
  (locking GetChosen = false /\
   exists s', exec GetChosen (set_lock true fresh) = Returned tt s' /\
              lock s' = lock (set_lock true fresh)) /\
  (lock fresh = false /\ reachable fresh (set_lock true fresh) picking /\
   holding (picking 0) = true /\ 0 = 0).
Proof.
  destruct lock_taken_by_the_four_mutators as (A & B & C).
  pose proof (proj1 get_chosen_during_pick) as Hr.
  refine (conj (conj eq_refl (conj eq_refl _))
            (conj (conj eq_refl _) (conj eq_refl (conj Hr (conj eq_refl _))))).
  - exact (proj1 (A Undo eq_refl) (set_lock true fresh) eq_refl).
  - exact (B GetChosen eq_refl (set_lock true fresh)).
  - exact (C fresh (set_lock true fresh) picking eq_refl Hr 0 0
             eq_refl eq_refl).
Defined.

(** ** The rotation loop *)

Lemma sleeps_snoc n : forall s, sleeps (S n) s = log (Sleep 5) (sleeps n s).
Proof.
  induction n as [|n IH]; intros s; [reflexivity|].
  change (sleeps (S (S n)) s) with (sleeps (S n) (log (Sleep 5) s)).
  now rewrite IH.
Qed.

Lemma sleeps_add a b s : sleeps (a + b) s = sleeps b (sleeps a s).
Proof.
  revert s. induction a as [|a IH]; intros s; simpl; [reflexivity|].
  apply IH.
Qed.

(** Sleeping changes the trace only. *)
Lemma sleeps_frame n : forall s,
  indexed (sleeps n s) = indexed s /\
  favorites_filepaths (sleeps n s) = favorites_filepaths s /\
  history (sleeps n s) = history s /\
  chosen (sleeps n s) = chosen s /\
  done (sleeps n s) = done s /\
  lock (sleeps n s) = lock s /\
  desktop (sleeps n s) = desktop s /\
  update_period_minutes (sleeps n s) = update_period_minutes s /\
  trace (sleeps n s) = trace s ++ repeat (Sleep 5) n.
Proof.
  induction n as [|n IH]; intros s; simpl.
  - rewrite app_nil_r. tauto.
  - destruct (IH (log (Sleep 5) s)) as (H1 & H2 & H3 & H4 & H5 & H6 & H7 & H8 & H9).
    rewrite H1, H2, H3, H4, H5, H6, H7, H8, H9. simpl.
    rewrite <- app_assoc. simpl. tauto.
Qed.

Lemma increments_quiet n : forall t s,
  done s = false -> increments n quiet t s = (false, t + n, sleeps n s).
Proof.
  induction n as [|n IH]; intros t s Hd; simpl.
  - now rewrite Nat.add_0_r.
  - rewrite Hd. unfold sleep, quiet at 1. rewrite IH by exact Hd.
    now rewrite Nat.add_succ_r.
Qed.

Lemma minutes_quiet m : forall t s,
  done s = false ->
  minutes m quiet t s = (false, t + 12 * m, sleeps (12 * m) s).
Proof.
  induction m as [|m IH]; intros t s Hd.
  - simpl. now rewrite Nat.add_0_r.
  - cbn [minutes]. change (60 / 5) with 12.
    rewrite increments_quiet by exact Hd.
    rewrite IH by (destruct (sleeps_frame 12 s) as (_ & _ & _ & _ & H & _);
                   now rewrite H).
    rewrite <- sleeps_add. f_equal; [f_equal; lia|f_equal; lia].
Qed.

Lemma pick_empty r f s :
  lock s = false -> indexed s = [] ->
  f = false \/ favorites_filepaths s = [] ->
  pick r f s = Raise Py.IndexError (set_lock true s).
Proof.
  intros Hl Hi Hf. unfold pick, acquire, pick_held. rewrite Hl. simpl.
  rewrite Hi.
  destruct Hf as [->|Hf]; simpl.
  - now rewrite choice_nil.
  - rewrite Hf. simpl. rewrite andb_false_r. now rewrite choice_nil.
Qed.

(** The error is not caught on its way out of the command parser. *)
Lemma read_next_empty_pool r w c h :
  Py.lower c = "next" ->
  lock (manager h) = false -> indexed (manager h) = [] ->
  mode_favorites h = false \/ favorites_filepaths (manager h) = [] ->
  read r w c h
  = Raise Py.IndexError (mkHost (set_lock true (manager h)) (mode_favorites h)).
Proof.
  intros Hc Hl Hi Hf. unfold read. cbv zeta. rewrite Hc.
  change (Py.mem "next" ["s"; "sk"; "ski"; "skip"]) with false.
  change (Py.mem "next" ["u"; "un"; "und"; "undo"]) with false.
  change (Py.mem "next" ["n"; "ne"; "nex"; "next"]) with true. cbv iota.
  now rewrite pick_empty.
Qed.




Lemma pick_done r f s s' : pick r f s = Returned tt s' -> done s' = done s.
Proof.
  unfold pick, acquire, pick_held, release.
  destruct (lock s); [discriminate|]. simpl.
  destruct (Py.choice r _); [|discriminate].
  intros H. inversion H; subst. simpl. now autorewrite with fields.
Qed.

(** *** A stop request during sleep number [k] *)

Section StopDuring.

Variable k : nat.

Lemma sleep_before t s : t <> k -> sleep (stop_during k) t s = log (Sleep 5) s.
Proof.
  intros Ht. unfold sleep, stop_during.
  destruct (Nat.eqb_spec t k); [contradiction|reflexivity].
Qed.

Lemma sleep_at s : sleep (stop_during k) k s = set_done_flag true (log (Sleep 5) s).
Proof. unfold sleep, stop_during. now rewrite Nat.eqb_refl. Qed.

Lemma done_sleeps n s : done (sleeps n s) = done s.
Proof. now destruct (sleeps_frame n s) as (_ & _ & _ & _ & H & _). Qed.

(** Sleeps that end before the request leave the flag alone. *)
Lemma increments_before n : forall t s,
  done s = false -> t + n <= k ->
  increments n (stop_during k) t s = (false, t + n, sleeps n s).
Proof.
  induction n as [|n IH]; intros t s Hd Hk; simpl.
  - now rewrite Nat.add_0_r.
  - rewrite Hd, sleep_before by lia.
    rewrite IH by (simpl; trivial; lia). now rewrite Nat.add_succ_r.
Qed.

(** A request during a sleep that another check follows: the loop returns
    at that check. *)
Lemma increments_stop n : forall t s,
  done s = false -> t <= k -> k + 1 < t + n ->
  increments n (stop_during k) t s
  = (true, S k, set_done_flag true (sleeps (S k - t) s)).
Proof.
  induction n as [|n IH]; intros t s Hd Ht Hk; [lia|].
  cbn [increments]. rewrite Hd.
  destruct (Nat.eq_dec t k) as [->|Hne].
  - rewrite sleep_at. destruct n as [|n]; [lia|]. cbn [increments].
    simpl done. replace (S k - k) with 1 by lia. reflexivity.
  - rewrite sleep_before by exact Hne.
    rewrite IH by (simpl; trivial; lia).
    replace (S k - t) with (S (S k - S t)) by lia. reflexivity.
Qed.

(** A request during the last sleep of the loop: the loop runs out. *)
Lemma increments_last n : forall t s,
  done s = false -> t <= k -> k + 1 = t + n ->
  increments n (stop_during k) t s
  = (false, t + n, set_done_flag true (sleeps n s)).
Proof.
  induction n as [|n IH]; intros t s Hd Ht Hk; [lia|].
  cbn [increments]. rewrite Hd.
  destruct (Nat.eq_dec t k) as [->|Hne].
  - rewrite sleep_at. destruct n as [|n]; [|lia]. cbn [increments sleeps].
    now rewrite Nat.add_1_r.
  - rewrite sleep_before by exact Hne.
    rewrite IH by (simpl; trivial; lia). now rewrite Nat.add_succ_r.
Qed.

Lemma minutes_before m : forall t s,
  done s = false -> t + 12 * m <= k ->
  minutes m (stop_during k) t s = (false, t + 12 * m, sleeps (12 * m) s).
Proof.
  induction m as [|m IH]; intros t s Hd Hk.
  - simpl. now rewrite Nat.add_0_r.
  - cbn [minutes]. change (60 / 5) with 12.
    rewrite increments_before by (trivial; lia).
    rewrite IH by (rewrite ?done_sleeps; trivial; lia).
    rewrite <- sleeps_add. f_equal; [f_equal; lia|f_equal; lia].
Qed.

(** A request during any sleep of the period but the last: [run] returns at
    the check that follows that sleep. *)
Lemma minutes_stop m : forall t s,
  done s = false -> t <= k -> k + 1 < t + 12 * m ->
  minutes m (stop_during k) t s
  = (true, S k, set_done_flag true (sleeps (S k - t) s)).
Proof.
  induction m as [|m IH]; intros t s Hd Ht Hk; [lia|].
  cbn [minutes]. change (60 / 5) with 12.
  destruct (Nat.lt_total (k + 1) (t + 12)) as [Hlt|[Heq|Hgt]].
  - now rewrite increments_stop.
  - rewrite increments_last by assumption.
    destruct m as [|m]; [lia|]. cbn [minutes]. change (60 / 5) with 12.
    cbn [increments done set_done_flag].
    replace (S k - t) with 12 by lia. f_equal. f_equal. lia.
  - rewrite increments_before by (trivial; lia).
    rewrite IH by (rewrite ?done_sleeps; trivial; lia).
    rewrite <- sleeps_add. do 3 f_equal. lia.
Qed.

(** A request during the last sleep of the period: the period runs out. *)
Lemma minutes_last m : forall t s,
  done s = false -> t <= k -> k + 1 = t + 12 * m ->
  minutes m (stop_during k) t s
  = (false, t + 12 * m, set_done_flag true (sleeps (12 * m) s)).
Proof.
  induction m as [|m IH]; intros t s Hd Ht Hk; [lia|].
  cbn [minutes]. change (60 / 5) with 12.
  destruct m as [|m].
  - rewrite increments_last by (trivial; lia). reflexivity.
  - rewrite increments_before by (trivial; lia).
    rewrite IH by (rewrite ?done_sleeps; trivial; lia).
    rewrite <- sleeps_add. f_equal; [f_equal; lia|do 2 f_equal; lia].
Qed.

(** The loop honours a stop request made during any sleep but the last of
    the period: it returns after that sleep, and [pick] was not called. *)
Lemma run_stop_honoured fuel rnd c s :
  done s = false ->
  k + 1 < 12 * Z.to_nat (update_period_minutes s) ->
  run (S fuel) (stop_during k) rnd 0 c s
  = Some (Returned tt (set_done_flag true (sleeps (S k) s))).
Proof.
  intros Hd Hk. cbn [run]. rewrite Hd.
  rewrite minutes_stop by (trivial; lia). now rewrite Nat.sub_0_r.
Qed.

(** A stop request made during the last sleep of the period comes too late
    for the [pick] that ends the period: it runs with the flag set. *)
Lemma run_stop_missed fuel rnd c s :
  done s = false ->
  k + 1 = 12 * Z.to_nat (update_period_minutes s) ->
  run (S (S fuel)) (stop_during k) rnd 0 c s
  = Some (pick (rnd c) false (set_done_flag true (sleeps (S k) s))).
Proof.
  intros Hd Hk. cbn [run]. rewrite Hd.
  rewrite minutes_last by (trivial; lia).
  replace (12 * Z.to_nat (update_period_minutes s)) with (S k) by lia.
  destruct (pick (rnd c) false (set_done_flag true (sleeps (S k) s)))
    as [[] s'| |] eqn:E; try reflexivity.
  apply pick_done in E. simpl in E. cbn [run]. now rewrite E.
Qed.

End StopDuring.

(** Scenario E: a one-minute period and a stop request three seconds after
    the start, that is during the first sleep.  The loop returns at its next
    check, after that one sleep, and [pick] was not called. *)
Lemma stop_in_first_increment :
  run 9 (stop_during 0) (fun _ => 0) 0 0 fresh
  = Some (Returned tt (set_done_flag true (sleeps 1 fresh))).
Proof. vm_compute. reflexivity. Qed.

(** C8, at the input where the code departs from it.  A one-minute period
    and a stop request during the last of its twelve sleeps: no check
    stands between that sleep and [self.pick()], so the loop changes the
    background once more with the Stop Flag already set, and only then
    returns. *)
Theorem stop_in_last_increment_still_picks :
  exists s12 s,
    minutes (Z.to_nat (update_period_minutes fresh)) (stop_during 11) 0 fresh
    = (false, 12, s12) /\
    done s12 = true /\
    pick 0 false s12 = Returned tt s /\
    run 9 (stop_during 11) (fun _ => 0) 0 0 fresh = Some (Returned tt s) /\
    trace s = repeat (Sleep 5) 12 ++ [Emit "/w/a.jpg"; SetWallpaper "/w/a.jpg"] /\
    chosen s = "/w/a.jpg" /\
    history s = ["/w/seed.png"; "/w/a.jpg"] /\
    desktop s = "/w/a.jpg".
Proof.
  exists (set_done_flag true (sleeps 12 fresh)).
  exists (state_of (pick 0 false (set_done_flag true (sleeps 12 fresh)))).
  vm_compute. repeat split; reflexivity.
Qed.

(** * Further properties of the code *)

(** ** Reasoning by critical section *)

Ltac break_step :=
  match goal with
  | |- context [match ?x with _ => _ end] =>
      lazymatch x with
      | context [match _ with _ => _ end] => fail
      | _ => destruct x eqn:?
      end
  end.

(** Unfolds the method in the goal and goes through its branches. *)
Ltac by_cases_of_method :=
  unfold pick, dislike_section, undo, favorite, acquire, pick_held,
    dislike_held, undo_held, favorite_held, release, write_disliked,
    write_favorites, set_wallpaper;
  simpl; repeat (break_step; simpl); autorewrite with fields; simpl.

(** [dislike] ends where its critical section ends, or where the [pick]
    that follows it ends. *)
Lemma dislike_state w r s :
  state_of (dislike w r s) = state_of (dislike_section w s) \/
  exists s1, dislike_section w s = Returned tt s1 /\
             state_of (dislike w r s) = state_of (pick r false s1).
Proof.
  unfold dislike. destruct (dislike_section w s) as [[] s1| |]; simpl; eauto.
Qed.

(** A property that every critical section keeps, however it ends, is kept
    by every call. *)
Lemma exec_keeps (P : State -> Prop) :
  (forall r f s, P s -> P (state_of (pick r f s))) ->
  (forall w s, P s -> P (state_of (dislike_section w s))) ->
  (forall s, P s -> P (state_of (undo s))) ->
  (forall w s, P s -> P (state_of (favorite w s))) ->
  (forall s, P s -> P (set_done_flag true s)) ->
  forall o s, P s -> P (state_of (exec o s)).
Proof.
  intros Hp Hd Hu Hf Hs o s H. destruct o as [f r|w r| |w| |]; simpl; auto.
  destruct (dislike_state w r s) as [E|(s1 & E1 & E)]; rewrite E; auto.
  apply Hp. specialize (Hd w s H). now rewrite E1 in Hd.
Qed.

Lemma exec_any_keeps (P : State -> Prop) :
  (forall o s, P s -> P (state_of (exec o s))) ->
  forall ops s, P s -> P (exec_any ops s).
Proof.
  intros Hstep ops. unfold exec_any.
  induction ops as [|o ops IH]; simpl; intros s H; auto.
Qed.

(** The same for what holds after the calls that return. *)
Lemma exec_returned_keeps (P : State -> Prop) :
  (forall r f s s', P s -> pick r f s = Returned tt s' -> P s') ->
  (forall w s s', P s -> dislike_section w s = Returned tt s' -> P s') ->
  (forall s s', P s -> undo s = Returned tt s' -> P s') ->
  (forall w s s', P s -> favorite w s = Returned tt s' -> P s') ->
  (forall s, P s -> P (set_done_flag true s)) ->
  forall o s s', P s -> exec o s = Returned tt s' -> P s'.
Proof.
  intros Hp Hd Hu Hf Hs o s s' H E.
  destruct o as [f r|w r| |w| |]; simpl in E; eauto.
  - unfold dislike in E.
    destruct (dislike_section w s) as [[] s1| |] eqn:E1; simpl in E;
      try discriminate; eauto.
  - inversion E; subst. exact H.
  - unfold set_done in E. inversion E; subst. auto.
Qed.

Lemma exec_all_keeps (P : State -> Prop) :
  (forall o s s', P s -> exec o s = Returned tt s' -> P s') ->
  forall ops s s', P s -> exec_all ops s = Returned tt s' -> P s'.
Proof.
  intros Hstep ops. induction ops as [|o ops IH]; simpl; intros s s' H E.
  - now inversion E; subst.
  - destruct (exec o s) as [[] s1| |] eqn:E1; simpl in E; try discriminate.
    eauto.
Qed.

(** ** What a call can do to the lists *)

Lemma pick_lists r f s :
  let s' := state_of (pick r f s) in
  indexed s' = indexed s /\ disliked_filepaths s' = disliked_filepaths s /\
  favorites_filepaths s' = favorites_filepaths s /\
  disk_disliked s' = disk_disliked s /\ disk_favorites s' = disk_favorites s /\
  done s' = done s.
Proof. by_cases_of_method; repeat split; reflexivity. Qed.

Lemma undo_lists s :
  let s' := state_of (undo s) in
  indexed s' = indexed s /\ disliked_filepaths s' = disliked_filepaths s /\
  favorites_filepaths s' = favorites_filepaths s /\
  disk_disliked s' = disk_disliked s /\ disk_favorites s' = disk_favorites s /\
  done s' = done s /\ chosen s' = chosen s.
Proof. by_cases_of_method; repeat split; reflexivity. Qed.

Lemma favorite_lists w s :
  let s' := state_of (favorite w s) in
  indexed s' = indexed s /\ disliked_filepaths s' = disliked_filepaths s /\
  disk_disliked s' = disk_disliked s /\ done s' = done s /\
  history s' = history s /\ chosen s' = chosen s /\ desktop s' = desktop s /\
  (favorites_filepaths s' = favorites_filepaths s \/
   favorites_filepaths s' = favorites_filepaths s ++ [chosen s]).
Proof. by_cases_of_method; repeat split; auto. Qed.

Lemma dislike_section_lists w s :
  let s' := state_of (dislike_section w s) in
  favorites_filepaths s' = favorites_filepaths s /\
  disk_favorites s' = disk_favorites s /\ done s' = done s /\
  chosen s' = chosen s /\ desktop s' = desktop s /\
  (history s' = history s \/
   Py.remove (chosen s) (history s) = Some (history s')) /\
  ((indexed s' = indexed s /\ disliked_filepaths s' = disliked_filepaths s) \/
   (Py.remove (chosen s) (indexed s) = Some (indexed s') /\
    disliked_filepaths s' = disliked_filepaths s ++ [chosen s])).
Proof.
  unfold dislike_section, acquire, dislike_held, release.
  destruct (lock s) eqn:Hl; simpl; [tauto|].
  autorewrite with fields. simpl.
  destruct (Py.remove (chosen s) (history s)) as [h|] eqn:Hh; simpl;
    autorewrite with fields; simpl;
    (destruct (Py.remove (chosen s) (indexed s)) as [pool|] eqn:Hp;
     [destruct w|]); simpl; autorewrite with fields; simpl;
    repeat split; auto.
Qed.

(** ** The Candidate Pool at construction *)

Lemma mem_in x l : Py.mem x l = true <-> In x l.
Proof.
  unfold Py.mem. rewrite existsb_exists. split.
  - intros (y & Hy & E). apply String.eqb_eq in E. now subst.
  - intros H. exists x. split; [exact H|apply String.eqb_refl].
Qed.

Lemma init_indexed files exts disliked favs wallpaper period sink :
  indexed (init files exts disliked favs wallpaper period sink)
  = filter (fun filepath => negb (Py.mem filepath disliked))
      (flat_map (fun filepath =>
                   flat_map (fun extension =>
                               if Py.endswith filepath extension
                               then [filepath] else [])
                            exts)
                files).
Proof. reflexivity. Qed.

Lemma init_pool_spec files exts disliked favs wallpaper period sink path :
  In path (indexed (init files exts disliked favs wallpaper period sink)) <->
  In path files /\
  (exists extension, In extension exts /\
                     Py.endswith path extension = true) /\
  ~ In path disliked.
Proof.
  rewrite init_indexed, filter_In, in_flat_map, negb_true_iff.
  split.
  - intros [(f & Hf & Hin) Hd]. apply in_flat_map in Hin.
    destruct Hin as (e & He & Hin).
    destruct (Py.endswith f e) eqn:E; [|contradiction].
    destruct Hin as [->|[]]. split; [exact Hf|].
    split; [now exists e|].
    intros Hin. apply mem_in in Hin. congruence.
  - intros (Hf & (e & He & E) & Hd). split.
    + exists path. split; [exact Hf|]. apply in_flat_map.
      exists e. split; [exact He|]. rewrite E. now left.
    + destruct (Py.mem path disliked) eqn:M; [|reflexivity].
      apply mem_in in M. contradiction.
Qed.

(** X1.  The Candidate Pool built by the constructor holds exactly the
    indexed files that end with one of the legal extensions and are not in
    the Disliked Set. *)
Theorem init_pool_members files exts disliked favs wallpaper period sink path :
  In path (indexed (init files exts disliked favs wallpaper period sink)) <->
  In path files /\
  (exists extension, In extension exts /\
                     Py.endswith path extension = true) /\
  ~ In path disliked.
Proof. apply init_pool_spec. Qed.

Lemma count_occ_filter_string (p : string -> bool) l x :
  count_occ string_dec (filter p l) x
  = if p x then count_occ string_dec l x else 0.
Proof.
  induction l as [|y l IH]; simpl; [now destruct (p x)|].
  destruct (p y) eqn:Py; simpl; destruct (string_dec y x) as [->|ne];
    rewrite ?IH; try rewrite Py; reflexivity.
Qed.

Lemma count_occ_matches f exts x :
  count_occ string_dec
    (flat_map (fun extension =>
                 if Py.endswith f extension then [f] else []) exts) x
  = if string_dec f x
    then List.length (filter (Py.endswith f) exts) else 0.
Proof.
  induction exts as [|e exts IH]; simpl; [now destruct (string_dec f x)|].
  rewrite count_occ_app, IH.
  destruct (Py.endswith f e); simpl; destruct (string_dec f x); lia.
Qed.

(** X2.  A path stands in the constructed pool once for every occurrence in
    the file index and every legal extension it ends with (so twice when two
    of the configured extensions are suffixes of it), and not at all when it
    is disliked. *)
Theorem init_pool_count files exts disliked favs wallpaper period sink path :
  count_occ string_dec
    (indexed (init files exts disliked favs wallpaper period sink)) path
  = if Py.mem path disliked then 0
    else count_occ string_dec files path
         * List.length (filter (Py.endswith path) exts).
Proof.
  rewrite init_indexed, count_occ_filter_string.
  destruct (Py.mem path disliked); simpl; [reflexivity|].
  induction files as [|f files IH]; simpl; [reflexivity|].
  rewrite count_occ_app, IH, count_occ_matches.
  destruct (string_dec f path) as [->|ne]; lia.
Qed.

(** ** Lists that only change one way *)

(** X3.  Whatever calls are made and however each ends, nothing is ever
    added to the Candidate Pool, and the Disliked Set and the Favorites
    List only grow at their end. *)
Theorem lists_change_one_way ops s :
  incl (indexed (exec_any ops s)) (indexed s) /\
  (exists added,
     disliked_filepaths (exec_any ops s) = disliked_filepaths s ++ added) /\
  (exists added,
     favorites_filepaths (exec_any ops s) = favorites_filepaths s ++ added).
Proof.
  apply (exec_any_keeps
           (fun s' => incl (indexed s') (indexed s) /\
                      (exists added, disliked_filepaths s'
                                     = disliked_filepaths s ++ added) /\
                      (exists added, favorites_filepaths s'
                                     = favorites_filepaths s ++ added))).
  - apply exec_keeps.
    + intros r f s1 (Hi & Hd & Hf).
      destruct (pick_lists r f s1) as (E1 & E2 & E3 & _).
      now rewrite E1, E2, E3.
    + intros w s1 (Hi & (d & Hd) & Hf).
      destruct (dislike_section_lists w s1)
        as (E3 & _ & _ & _ & _ & _ & [[E1 E2]|[E1 E2]]); rewrite E2, E3.
      * rewrite E1. eauto.
      * split; [|split; [|exact Hf]].
        -- intros x Hx. apply Hi. eapply remove_incl; eauto.
        -- exists (d ++ [chosen s1]). now rewrite Hd, app_assoc.
    + intros s1 (Hi & Hd & Hf).
      destruct (undo_lists s1) as (E1 & E2 & E3 & _).
      now rewrite E1, E2, E3.
    + intros w s1 (Hi & Hd & (a & Hf)).
      destruct (favorite_lists w s1)
        as (E1 & E2 & _ & _ & _ & _ & _ & [E3|E3]); rewrite E1, E2, E3.
      * eauto.
      * split; [exact Hi|]. split; [exact Hd|].
        exists (a ++ [chosen s1]). now rewrite Hf, app_assoc.
    + intros s1 H. exact H.
  - split; [apply incl_refl|].
    split; exists []; now rewrite app_nil_r.
Qed.

(** X4.  Once the Stop Flag is set, no call resets it. *)
Theorem stop_flag_stays ops s :
  done s = true -> done (exec_any ops s) = true.
Proof.
  apply (exec_any_keeps (fun s' => done s' = true)).
  apply exec_keeps.
  - intros r f s1 H. destruct (pick_lists r f s1) as (_ & _ & _ & _ & _ & E).
    now rewrite E.
  - intros w s1 H. destruct (dislike_section_lists w s1) as (_ & _ & E & _).
    now rewrite E.
  - intros s1 H. destruct (undo_lists s1) as (_ & _ & _ & _ & _ & E & _).
    now rewrite E.
  - intros w s1 H. destruct (favorite_lists w s1) as (_ & _ & _ & E & _).
    now rewrite E.
  - reflexivity.
Qed.

Lemma stop_flag_stays_witness :
  done (set_done_flag true fresh) = true /\
  done (exec_any [Pick false 0; Dislike IoFailWrite 1; Undo; Favorite IoOk]
                 (set_done_flag true fresh)) = true.
Proof.
  exact (conj eq_refl
           (stop_flag_stays
              [Pick false 0; Dislike IoFailWrite 1; Undo; Favorite IoOk]
              (set_done_flag true fresh) eq_refl)).
Defined.

(** ** Pool and Disliked Set stay apart *)

Lemma remove_nodup x l l' : NoDup l -> Py.remove x l = Some l' -> NoDup l'.
Proof.
  revert l'. induction l as [|y l IH]; simpl; intros l' Hnd H; [discriminate|].
  inversion Hnd as [|? ? Hy Hl]; subst.
  destruct (String.eqb x y); [now inversion H; subst|].
  destruct (Py.remove x l) as [r|] eqn:E; [|discriminate].
  inversion H; subst. constructor; [|now apply IH].
  intros Hin. apply Hy. eapply remove_incl; eauto.
Qed.

Lemma exec_pool_clean o s : pool_clean s -> pool_clean (state_of (exec o s)).
Proof.
  revert o s. apply exec_keeps; unfold pool_clean.
  - intros r f s [Hn Hd]. destruct (pick_lists r f s) as (E1 & E2 & _).
    now rewrite E1, E2.
  - intros w s [Hn Hd].
    destruct (dislike_section_lists w s)
      as (_ & _ & _ & _ & _ & _ & [[E1 E2]|[E1 E2]]); rewrite E2.
    + now rewrite E1.
    + split; [exact (remove_nodup _ _ _ Hn E1)|].
      intros path Hp Hin. apply in_app_or in Hin.
      destruct Hin as [Hin|[<-|[]]].
      * apply (Hd path); [eapply remove_incl; eauto|exact Hin].
      * exact (remove_unique _ _ _ Hn E1 Hp).
  - intros s [Hn Hd]. destruct (undo_lists s) as (E1 & E2 & _).
    now rewrite E1, E2.
  - intros w s [Hn Hd]. destruct (favorite_lists w s) as (E1 & E2 & _).
    now rewrite E1, E2.
  - intros s H. exact H.
Qed.

Lemma exec_any_pool_clean ops s :
  pool_clean s -> pool_clean (exec_any ops s).
Proof.
  apply (exec_any_keeps pool_clean). intros o s1. apply exec_pool_clean.
Qed.

(** X5.  When the Candidate Pool holds no path twice and no disliked path,
    this stays so whatever calls are made and however each ends (a failing
    snapshot write included). *)
Theorem pool_and_disliked_stay_apart ops s :
  pool_clean s -> pool_clean (exec_any ops s).
Proof. apply exec_any_pool_clean. Qed.

Lemma fresh_pool_clean : pool_clean fresh.
Proof.
  split.
  - vm_compute. repeat constructor; simpl; intuition discriminate.
  - intros path _ Hin. vm_compute in Hin. exact Hin.
Qed.

Lemma pool_and_disliked_stay_apart_witness :
  pool_clean fresh /\
  pool_clean (exec_any [Pick false 1; Dislike IoFailOpen 0; Dislike IoOk 0;
                        Favorite IoOk] fresh).
Proof.
  exact (conj fresh_pool_clean
           (pool_and_disliked_stay_apart
              [Pick false 1; Dislike IoFailOpen 0; Dislike IoOk 0;
               Favorite IoOk] fresh fresh_pool_clean)).
Defined.

(** X6.  From such a state on, a [pick] outside favorites mode never
    chooses a disliked path. *)
Theorem normal_pick_avoids_disliked ops r s s' :
  pool_clean s ->
  pick r false (exec_any ops s) = Returned tt s' ->
  ~ In (chosen s') (disliked_filepaths s').
Proof.
  intros Hc H.
  pose proof (exec_any_pool_clean ops s Hc) as [_ Hd].
  apply pick_returned in H. simpl in H.
  destruct H as (Hin & _ & _ & _ & _ & E & _).
  rewrite E. now apply Hd.
Qed.

Lemma normal_pick_avoids_disliked_witness :
  pool_clean fresh /\
  pick 4 false (exec_any [Pick false 1; Dislike IoOk 0] fresh)
  = Returned tt
      (state_of (pick 4 false (exec_any [Pick false 1; Dislike IoOk 0] fresh)))
  /\
  ~ In (chosen (state_of (pick 4 false
                            (exec_any [Pick false 1; Dislike IoOk 0] fresh))))
       (disliked_filepaths
          (state_of (pick 4 false
                       (exec_any [Pick false 1; Dislike IoOk 0] fresh)))).
Proof.
  assert (H : pick 4 false (exec_any [Pick false 1; Dislike IoOk 0] fresh)
              = Returned tt
                  (state_of (pick 4 false
                               (exec_any [Pick false 1; Dislike IoOk 0]
                                         fresh))))
    by (vm_compute; reflexivity).
  exact (conj fresh_pool_clean
           (conj H (normal_pick_avoids_disliked
                      [Pick false 1; Dislike IoOk 0] 4 fresh _
                      fresh_pool_clean H))).
Defined.

(** ** Snapshot files and memory *)

Lemma state_of_returned (m : outcome State unit) s :
  m = Returned tt s -> state_of m = s.
Proof. now intros ->. Qed.

Lemma exec_persisted o s s' :
  persisted s -> exec o s = Returned tt s' -> persisted s'.
Proof.
  revert o s s'. apply exec_returned_keeps; unfold persisted.
  - intros r f s s' [Hd Hf] H. apply state_of_returned in H.
    destruct (pick_lists r f s) as (_ & E2 & E3 & E4 & E5 & _).
    rewrite H in *. now rewrite E2, E3, E4, E5.
  - intros w s s' [Hd Hf] H.
    pose proof (dislike_section_returned w s s' H)
      as (_ & _ & _ & _ & Hdk & _).
    apply state_of_returned in H.
    destruct (dislike_section_lists w s) as (E1 & E2 & _).
    rewrite H in *. now rewrite E1, E2.
  - intros s s' [Hd Hf] H. apply state_of_returned in H.
    destruct (undo_lists s) as (_ & E2 & E3 & E4 & E5 & _).
    rewrite H in *. now rewrite E2, E3, E4, E5.
  - intros w s s' [Hd Hf] H.
    pose proof (favorite_returned w s s' H) as (_ & _ & Hfk & _).
    apply state_of_returned in H.
    destruct (favorite_lists w s) as (_ & E2 & E3 & _).
    rewrite H in *. now rewrite E2, E3.
  - intros s H. exact H.
Qed.

(** X7.  As long as the calls return, both snapshot files hold exactly the
    Disliked Set and the Favorites List the manager has in memory, from
    construction on. *)
Theorem snapshots_follow_memory
    files exts disliked favs wallpaper period sink ops s :
  exec_all ops (init files exts disliked favs wallpaper period sink)
  = Returned tt s ->
  persisted s.
Proof.
  apply (exec_all_keeps persisted).
  - intros o s1 s2. apply exec_persisted.
  - split; reflexivity.
Qed.

Lemma snapshots_follow_memory_witness :
  exec_all [Pick false 1; Favorite IoOk; Dislike IoOk 3; Undo] fresh
  = Returned tt
      (state_of (exec_all [Pick false 1; Favorite IoOk; Dislike IoOk 3; Undo]
                          fresh)) /\
  persisted
    (state_of (exec_all [Pick false 1; Favorite IoOk; Dislike IoOk 3; Undo]
                        fresh)).
Proof.
  assert (H : exec_all [Pick false 1; Favorite IoOk; Dislike IoOk 3; Undo]
                       fresh
              = Returned tt
                  (state_of (exec_all [Pick false 1; Favorite IoOk;
                                       Dislike IoOk 3; Undo] fresh)))
    by (vm_compute; reflexivity).
  exact (conj H
           (snapshots_follow_memory
              ["/w/a.jpg"; "/w/b.jpg"; "/w/c.jpg"; "/w/notes.txt"] [".jpg"]
              [] [] "/w/seed.png" 1%Z true _ _ H)).
Defined.

(** ** What is on the desktop *)

Lemma exec_desktop o s s' :
  desktop s = last (history s) "" -> exec o s = Returned tt s' ->
  desktop s' = last (history s') "".
Proof.
  destruct o as [f r|w r| |w| |]; simpl; intros Hd H.
  - apply pick_returned in H. destruct H as (_ & Hh & Hk & _).
    now rewrite Hh, last_snoc.
  - apply dislike_returned in H. destruct H as (_ & _ & _ & Hh & _ & Hk).
    now rewrite Hh, last_snoc.
  - destruct (lock s) eqn:Hl.
    + unfold undo, acquire in H. rewrite Hl in H. discriminate.
    + destruct (Nat.ltb_spec 1 (List.length (history s))) as [Hlen|Hlen].
      * destruct (undo_pops s Hl Hlen) as (s2 & E & Hh & Hk & _).
        rewrite E in H. inversion H; subst. now rewrite Hh.
      * rewrite (undo_seed s Hl Hlen) in H. now inversion H; subst.
  - apply state_of_returned in H.
    destruct (favorite_lists w s) as (_ & _ & _ & _ & Hh & _ & Hk & _).
    rewrite H in *. now rewrite Hh, Hk.
  - now inversion H; subst.
  - unfold set_done in H. now inversion H; subst.
Qed.

(** X8.  As long as the calls return, the desktop shows the last entry of
    the History, from construction on (also after [undo], which leaves
    Chosen behind). *)
Theorem desktop_shows_top
    files exts disliked favs wallpaper period sink ops s :
  exec_all ops (init files exts disliked favs wallpaper period sink)
  = Returned tt s ->
  desktop s = last (history s) "".
Proof.
  apply (exec_all_keeps (fun s => desktop s = last (history s) "")).
  - intros o s1 s2. apply exec_desktop.
  - reflexivity.
Qed.

Lemma desktop_shows_top_witness :
  exec_all [Pick false 1; Pick false 2; Undo; Favorite IoOk] fresh
  = Returned tt
      (state_of (exec_all [Pick false 1; Pick false 2; Undo; Favorite IoOk]
                          fresh)) /\
  desktop (state_of (exec_all [Pick false 1; Pick false 2; Undo;
                               Favorite IoOk] fresh))
  = last (history (state_of (exec_all [Pick false 1; Pick false 2; Undo;
                                       Favorite IoOk] fresh))) "".
Proof.
  assert (H : exec_all [Pick false 1; Pick false 2; Undo; Favorite IoOk] fresh
              = Returned tt
                  (state_of (exec_all [Pick false 1; Pick false 2; Undo;
                                       Favorite IoOk] fresh)))
    by (vm_compute; reflexivity).
  exact (conj H
           (desktop_shows_top
              ["/w/a.jpg"; "/w/b.jpg"; "/w/c.jpg"; "/w/notes.txt"] [".jpg"]
              [] [] "/w/seed.png" 1%Z true _ _ H)).
Defined.

(** However [pick] ends, it left what is shown alone or it showed a path
    of the pool or of the Favorites List. *)
Lemma pick_shown r f s :
  let s' := state_of (pick r f s) in
  (history s' = history s /\ chosen s' = chosen s /\ desktop s' = desktop s)
  \/
  ((In (chosen s') (indexed s) \/ In (chosen s') (favorites_filepaths s)) /\
   history s' = history s ++ [chosen s'] /\ desktop s' = chosen s').
Proof.
  unfold pick, acquire, pick_held, release.
  destruct (lock s); simpl; [tauto|].
  destruct (Py.choice r _) as [c|] eqn:E; simpl; [|tauto].
  autorewrite with fields. simpl. right.
  apply choice_in in E. split; [|tauto].
  destruct (f && _); tauto.
Qed.

Lemma undo_shown s :
  let s' := state_of (undo s) in
  (history s' = history s /\ desktop s' = desktop s) \/
  (1 < List.length (history s) /\
   history s' = removelast (history s) /\
   desktop s' = last (removelast (history s)) "").
Proof.
  unfold undo, acquire, undo_held, release.
  destruct (lock s); simpl; [tauto|].
  destruct (Nat.ltb_spec 1 (List.length (history s))); simpl;
    autorewrite with fields; simpl; tauto.
Qed.

Lemma removelast_incl (l : list string) : incl (removelast l) l.
Proof.
  induction l as [|x l IH] using rev_ind; [apply incl_refl|].
  rewrite removelast_last. intros y Hy. apply in_or_app. now left.
Qed.

Lemma last_in (l : list string) d : l <> [] -> In (last l d) l.
Proof.
  induction l as [|x l IH] using rev_ind; [congruence|].
  intros _. rewrite last_last. apply in_or_app. right. now left.
Qed.

Lemma exec_within paths o s :
  within paths s -> within paths (state_of (exec o s)).
Proof.
  revert o s. apply exec_keeps; unfold within.
  - intros r f s (Hi & Hf & Hh & Hc & Hd).
    destruct (pick_lists r f s) as (E1 & _ & E3 & _). rewrite E1, E3.
    destruct (pick_shown r f s) as [(Eh & Ec & Ed)|([Hin|Hin] & Eh & Ed)];
      rewrite Eh, ?Ec, Ed; try tauto;
      (assert (Hp : In (chosen (state_of (pick r f s))) paths) by auto);
      repeat split; auto; apply incl_app; auto;
      intros x [<-|[]]; exact Hp.
  - intros w s (Hi & Hf & Hh & Hc & Hd).
    destruct (dislike_section_lists w s)
      as (E3 & _ & _ & Ec & Ed & Eh & Ep). rewrite E3, Ec, Ed.
    repeat split; auto.
    + destruct Ep as [[E1 _]|[E1 _]]; [now rewrite E1|].
      intros x Hx. apply Hi. eapply remove_incl; eauto.
    + destruct Eh as [E|E]; [now rewrite E|].
      intros x Hx. apply Hh. eapply remove_incl; eauto.
  - intros s (Hi & Hf & Hh & Hc & Hd).
    destruct (undo_lists s) as (E1 & _ & E3 & _ & _ & _ & Ec).
    rewrite E1, E3, Ec.
    destruct (undo_shown s) as [(Eh & Ed)|(Hlen & Eh & Ed)]; rewrite Eh, Ed.
    + tauto.
    + repeat split; auto.
      * intros x Hx. apply Hh. now apply removelast_incl.
      * apply Hh. apply removelast_incl. apply last_in.
        destruct (history s) as [|x [|y l]]; simpl in *; try lia.
        destruct l; discriminate.
  - intros w s (Hi & Hf & Hh & Hc & Hd).
    destruct (favorite_lists w s) as (E1 & _ & _ & _ & Eh & Ec & Ed & Ef).
    rewrite E1, Eh, Ec, Ed. repeat split; auto.
    destruct Ef as [E|E]; rewrite E; auto.
    apply incl_app; auto. intros x [<-|[]]. exact Hc.
  - intros s H. exact H.
Qed.

(** X9.  Whatever calls are made and however each ends, every path in the
    pool, the Favorites List and the History, Chosen and the background on
    the desktop are the background found at startup, an indexed file or a
    favorite loaded at startup: the manager shows nothing else. *)
Theorem shown_paths_come_from_startup
    files exts disliked favs wallpaper period sink ops :
  within (wallpaper :: files ++ favs)
         (exec_any ops (init files exts disliked favs wallpaper period sink)).
Proof.
  apply (exec_any_keeps (within (wallpaper :: files ++ favs))).
  - intros o s. apply exec_within.
  - unfold within. repeat split.
    + intros x Hx. apply init_pool_spec in Hx. destruct Hx as (Hx & _).
      right. apply in_or_app. now left.
    + intros x Hx. right. apply in_or_app. now right.
    + intros x [<-|[]]. now left.
    + now left.
    + now left.
Qed.

(** ** How the operations compose *)

(** X10.  [undo] right after a [pick] takes the picked entry off the
    History again and puts the previous top back on the desktop; the pool
    and the two persisted lists are as before the [pick]. *)
Theorem pick_then_undo r f s s1 :
  lock s = false -> history s <> [] ->
  pick r f s = Returned tt s1 ->
  exists s2,
    undo s1 = Returned tt s2 /\
    history s2 = history s /\
    desktop s2 = last (history s) "" /\
    indexed s2 = indexed s /\
    disliked_filepaths s2 = disliked_filepaths s /\
    favorites_filepaths s2 = favorites_filepaths s.
Proof.
  intros Hl Hne Hp.
  pose proof (pick_returned r f s s1 Hp) as (_ & Hh & _ & _ & Hi & Hd & Hf & _ & Hl1).
  assert (Hlen : 1 < List.length (history s1)).
  { rewrite Hh, length_app. simpl.
    destruct (history s); [congruence|simpl; lia]. }
  destruct (undo_pops s1 Hl1 Hlen) as (s2 & E & Hh2 & Hk2 & _).
  exists s2. split; [exact E|].
  rewrite Hh, removelast_last in Hh2, Hk2.
  pose proof (state_of_returned _ _ E) as Es.
  destruct (undo_lists s1) as (E1 & E2 & E3 & _). rewrite Es in *.
  repeat split; congruence.
Qed.

Lemma pick_then_undo_witness :
  lock fresh = false /\ history fresh <> [] /\
  pick 2 false fresh = Returned tt (state_of (pick 2 false fresh)) /\
  exists s2,
    undo (state_of (pick 2 false fresh)) = Returned tt s2 /\
    history s2 = history fresh /\
    desktop s2 = last (history fresh) "".
Proof.
  assert (H1 : lock fresh = false) by reflexivity.
  assert (H2 : history fresh <> []) by discriminate.
  assert (H3 : pick 2 false fresh = Returned tt (state_of (pick 2 false fresh)))
    by (vm_compute; reflexivity).
  destruct (pick_then_undo 2 false fresh _ H1 H2 H3)
    as (s2 & E & Hh & Hd & _).
  exact (conj H1 (conj H2 (conj H3
           (ex_intro _ s2 (conj E (conj Hh Hd)))))).
Defined.

Lemma favorite_ok s :
  lock s = false -> exists s', favorite IoOk s = Returned tt s'.
Proof.
  intros Hl. unfold favorite, acquire. rewrite Hl. cbn [bind].
  unfold favorite_held, write_favorites. eexists. reflexivity.
Qed.

(** X11.  The Favorites List is not a set: [favorite] called twice on the
    same Chosen, both writes succeeding, appends Chosen twice and leaves
    that list in the file. *)
Theorem favorite_twice s :
  lock s = false ->
  exists s',
    exec_all [Favorite IoOk; Favorite IoOk] s = Returned tt s' /\
    favorites_filepaths s' = favorites_filepaths s ++ [chosen s; chosen s] /\
    disk_favorites s' = Some (favorites_filepaths s').
Proof.
  intros Hl.
  destruct (favorite_ok s Hl) as (s1 & E1).
  pose proof (favorite_returned _ _ _ E1) as (_ & F1 & _ & _ & C1 & _ & L1).
  destruct (favorite_ok s1 L1) as (s2 & E2).
  pose proof (favorite_returned _ _ _ E2) as (_ & F2 & D2 & _).
  exists s2. cbn [exec_all exec]. rewrite E1. cbn [bind]. rewrite E2.
  cbn [bind]. split; [reflexivity|]. split; [|exact D2].
  now rewrite F2, F1, C1, <- app_assoc.
Qed.

Lemma favorite_twice_witness :
  lock fresh = false /\
  exists s',
    exec_all [Favorite IoOk; Favorite IoOk] fresh = Returned tt s' /\
    favorites_filepaths s'
    = favorites_filepaths fresh ++ [chosen fresh; chosen fresh] /\
    disk_favorites s' = Some (favorites_filepaths s').
Proof. exact (conj eq_refl (favorite_twice fresh eq_refl)). Defined.

Lemma undo_history s :
  lock s = false ->
  exists s',
    undo s = Returned tt s' /\ lock s' = false /\
    history s'
    = firstn (Nat.max 1 (List.length (history s) - 1)) (history s).
Proof.
  intros Hl.
  destruct (Nat.ltb_spec 1 (List.length (history s))) as [Hlen|Hlen].
  - destruct (undo_pops s Hl Hlen) as (s' & E & Hh & _ & _ & _ & Hl').
    exists s'. split; [exact E|]. split; [exact Hl'|].
    rewrite Hh, removelast_firstn_len. f_equal. lia.
  - exists s. split; [now apply undo_seed|]. split; [exact Hl|].
    rewrite firstn_all2; [reflexivity|lia].
Qed.

(** X12.  [undo] can be repeated down to the oldest entry and no further:
    after [n] calls the History is its first [max 1 (length - n)] entries.
    The pool, the Disliked Set and the Favorites List are not touched. *)
Theorem undo_n_times n : forall s,
  lock s = false ->
  exists s',
    exec_all (repeat Undo n) s = Returned tt s' /\
    history s'
    = firstn (Nat.max 1 (List.length (history s) - n)) (history s) /\
    indexed s' = indexed s /\
    disliked_filepaths s' = disliked_filepaths s /\
    favorites_filepaths s' = favorites_filepaths s.
Proof.
  induction n as [|n IH]; intros s Hl.
  - exists s. split; [reflexivity|]. rewrite Nat.sub_0_r.
    rewrite firstn_all2 by lia. tauto.
  - destruct (undo_history s Hl) as (s1 & E & Hl1 & Hh1).
    destruct (IH s1 Hl1) as (s' & E' & Hh' & Hi & Hd & Hf).
    exists s'. cbn [repeat exec_all exec]. rewrite E. cbn [bind].
    split; [exact E'|].
    pose proof (state_of_returned _ _ E) as Es.
    destruct (undo_lists s) as (E1 & E2 & E3 & _). rewrite Es in *.
    split; [|repeat split; congruence].
    rewrite Hh', Hh1, firstn_firstn, length_firstn. f_equal. lia.
Qed.

Lemma undo_n_times_witness :
  lock fresh = false /\
  exists s',
    exec_all (repeat Undo 5) fresh = Returned tt s' /\
    history s'
    = firstn (Nat.max 1 (List.length (history fresh) - 5)) (history fresh).
Proof.
  destruct (undo_n_times 5 fresh eq_refl) as (s' & E & Hh & _).
  exact (conj eq_refl (ex_intro _ s' (conj E Hh))).
Defined.

(** ** The rotation loop ends by the Stop Flag only *)

Lemma increments_returned n env : forall t s t' s',
  increments n env t s = (true, t', s') -> done s' = true.
Proof.
  induction n as [|n IH]; simpl; intros t s t' s' H; [discriminate|].
  destruct (done s) eqn:Hd.
  - now inversion H; subst.
  - eapply IH; eauto.
Qed.

Lemma minutes_returned m env : forall t s t' s',
  minutes m env t s = (true, t', s') -> done s' = true.
Proof.
  induction m as [|m IH]; cbn [minutes]; intros t s t' s' H; [discriminate|].
  destruct (increments (60 / 5) env t s) as [[[] t1] s1] eqn:E.
  - inversion H; subst. eapply increments_returned; eauto.
  - eapply IH; eauto.
Qed.

(** X13.  Whatever the other thread does while the loop sleeps, [run]
    returns only with the Stop Flag set: otherwise it goes on, or it ends
    with the error of a [pick]. *)
Theorem run_returns_only_when_stopped fuel env rnd : forall t c s s',
  run fuel env rnd t c s = Some (Returned tt s') -> done s' = true.
Proof.
  induction fuel as [|fuel IH]; cbn [run]; intros t c s s' H; [discriminate|].
  destruct (done s) eqn:Hd; [now inversion H; subst|].
  destruct (minutes _ env t s) as [[[] t1] s1] eqn:E.
  - inversion H; subst. eapply minutes_returned; eauto.
  - destruct (pick (rnd c) false s1) as [[] s2| |]; try discriminate.
    eapply IH; eauto.
Qed.

Lemma run_returns_only_when_stopped_witness :
  run 3 (stop_during 14) (fun c => c) 0 0 fresh
  = Some (Returned tt
            (set_done_flag true
               (sleeps 3 (state_of (pick 0 false (sleeps 12 fresh)))))) /\
  done (set_done_flag true
          (sleeps 3 (state_of (pick 0 false (sleeps 12 fresh))))) = true.
Proof.
  assert (H : run 3 (stop_during 14) (fun c => c) 0 0 fresh
              = Some (Returned tt
                        (set_done_flag true
                           (sleeps 3 (state_of (pick 0 false
                                                  (sleeps 12 fresh)))))))
    by (vm_compute; reflexivity).
  pose proof (run_returns_only_when_stopped 3 (stop_during 14) (fun c => c)
                0 0 fresh _ H) as D.
  exact (conj H D).
Defined.

Lemma sleeps_file_out n : forall s, file_out (sleeps n s) = file_out s.
Proof. induction n as [|n IH]; intros s; simpl; [reflexivity|]. now rewrite IH. Qed.

(** X14.  Left alone, the loop spends a period of [p] minutes in exactly
    [12 * p] sleeps of five seconds and then changes the background once,
    outside favorites mode; with a period of zero minutes or less it picks
    again at once, without sleeping. *)
Theorem quiet_period fuel rnd t c s s1 :
  done s = false ->
  pick (rnd c) false
       (sleeps (12 * Z.to_nat (update_period_minutes s)) s) = Returned tt s1 ->
  run (S fuel) quiet rnd t c s
  = run fuel quiet rnd (t + 12 * Z.to_nat (update_period_minutes s)) (S c) s1
  /\
  In (chosen s1) (indexed s) /\
  trace s1
  = trace s ++ repeat (Sleep 5) (12 * Z.to_nat (update_period_minutes s))
            ++ (if file_out s then [Emit (chosen s1)] else [])
            ++ [SetWallpaper (chosen s1)].
Proof.
  intros Hd Hp. split; [|split].
  - cbn [run]. rewrite Hd, minutes_quiet by exact Hd. now rewrite Hp.
  - apply pick_returned in Hp. simpl in Hp. destruct Hp as (Hin & _).
    now destruct (sleeps_frame (12 * Z.to_nat (update_period_minutes s)) s)
      as (<- & _).
  - apply pick_returned in Hp. destruct Hp as (_ & _ & _ & Ht & _).
    rewrite Ht, sleeps_file_out.
    destruct (sleeps_frame (12 * Z.to_nat (update_period_minutes s)) s)
      as (_ & _ & _ & _ & _ & _ & _ & _ & ->).
    now rewrite <- app_assoc.
Qed.

Lemma quiet_period_witness :
  done fresh = false /\
  pick 1 false (sleeps (12 * Z.to_nat (update_period_minutes fresh)) fresh)
  = Returned tt
      (state_of (pick 1 false
                   (sleeps (12 * Z.to_nat (update_period_minutes fresh))
                           fresh))) /\
  In (chosen (state_of (pick 1 false
                          (sleeps (12 * Z.to_nat (update_period_minutes fresh))
                                  fresh))))
     (indexed fresh).
Proof.
  assert (H : pick 1 false
                (sleeps (12 * Z.to_nat (update_period_minutes fresh)) fresh)
              = Returned tt
                  (state_of (pick 1 false
                     (sleeps (12 * Z.to_nat (update_period_minutes fresh))
                             fresh))))
    by (vm_compute; reflexivity).
  exact (conj eq_refl
           (conj H (proj1 (proj2 (quiet_period 0 (fun _ => 1) 0 0 fresh _
                                    eq_refl H))))).
Defined.

(** X15.  A stop request made during any sleep of the period but the last
    makes the loop return right after that sleep: by then it has slept
    [k + 1] times in all and has not called [pick]. *)
Theorem stop_request_honoured k fuel rnd c s :
  done s = false ->
  k + 1 < 12 * Z.to_nat (update_period_minutes s) ->
  exists s',
    run (S fuel) (stop_during k) rnd 0 c s = Some (Returned tt s') /\
    trace s' = trace s ++ repeat (Sleep 5) (S k) /\
    history s' = history s /\ desktop s' = desktop s.
Proof.
  intros Hd Hk. exists (set_done_flag true (sleeps (S k) s)).
  split; [exact (run_stop_honoured k fuel rnd c s Hd Hk)|].
  destruct (sleeps_frame (S k) s) as (_ & _ & Hh & _ & _ & _ & Hdesk & _ & Ht).
  cbn [trace history desktop set_done_flag]. tauto.
Qed.

Lemma stop_request_honoured_witness :
  done fresh = false /\
  3 + 1 < 12 * Z.to_nat (update_period_minutes fresh) /\
  exists s',
    run 1 (stop_during 3) (fun _ => 0) 0 0 fresh = Some (Returned tt s') /\
    trace s' = trace fresh ++ repeat (Sleep 5) 4.
Proof.
  assert (H : 3 + 1 < 12 * Z.to_nat (update_period_minutes fresh))
    by (vm_compute; lia).
  destruct (stop_request_honoured 3 0 (fun _ => 0) 0 fresh eq_refl H)
    as (s' & E & Ht & _).
  exact (conj eq_refl (conj H (ex_intro _ s' (conj E Ht)))).
Defined.

(** ** Commands *)

Lemma mem_false x l : ~ In x l -> Py.mem x l = false.
Proof.
  intros H. destruct (Py.mem x l) eqn:E; [|reflexivity].
  apply mem_in in E. contradiction.
Qed.


Lemma call_returned_true {A} (m : outcome State A) h b h' :
  bind (call m h) (fun _ h => Returned true h) = Returned b h' -> b = true.
Proof.
  destruct m; simpl; intros H; try discriminate. now inversion H.
Qed.

Lemma read_returned_cases r w c h b h' :
  read r w c h = Returned b h' ->
  (b = false <-> In (Py.lower c) ["exit"; "quit"; "done"]) /\
  (b = false -> done (manager h') = true).
Proof.
  intros H.
  destruct (Py.mem (Py.lower c) ["exit"; "quit"; "done"]) eqn:Estop.
  - apply mem_in in Estop. rewrite (read_stop r w c h Estop) in H.
    inversion H; subst. simpl. tauto.
  - assert (Hb : b = true).
    { unfold read in H. cbv zeta in H. rewrite Estop in H.
      destruct (Py.mem (Py.lower c) ["s"; "sk"; "ski"; "skip"]);
        [exact (call_returned_true _ _ _ _ H)|].
      destruct (Py.mem (Py.lower c) ["u"; "un"; "und"; "undo"]);
        [exact (call_returned_true _ _ _ _ H)|].
      destruct (Py.mem (Py.lower c) ["n"; "ne"; "nex"; "next"]);
        [exact (call_returned_true _ _ _ _ H)|].
      destruct (Py.mem (Py.lower c) ["l"; "li"; "lis"; "list"]);
        [simpl in H; now inversion H|].
      destruct (Py.mem (Py.lower c) ["f"; "fa"; "fav"]);
        [exact (call_returned_true _ _ _ _ H)|].
      destruct (Py.startswith (Py.lower c) "mode").
      - destruct (Py.split (Py.lower c)) as [|x [|arg l]];
          try discriminate; [now inversion H|].
        destruct (String.eqb (Py.lower arg) "normal"); [now inversion H|].
        destruct (String.eqb (Py.lower arg) "fav"); now inversion H.
      - destruct (String.eqb (Py.lower c) "noop"); now inversion H. }
    subst b. split; [|discriminate].
    split; [discriminate|].
    intros Hin. apply mem_in in Hin. congruence.
Qed.

(** X17.  [read] tells the command loop to stop for exit, quit and done
    and for nothing else, and when it does, the Stop Flag is set. *)
Theorem read_stops_on_stop_words_only r w c h b h' :
  read r w c h = Returned b h' ->
  (b = false <-> In (Py.lower c) ["exit"; "quit"; "done"]) /\
  (b = false -> done (manager h') = true).
Proof. apply read_returned_cases. Qed.

Lemma read_stops_on_stop_words_only_witness :
  read 0 IoOk "DONE" console
  = Returned false (mkHost (set_done_flag true (manager console)) false) /\
  In (Py.lower "DONE") ["exit"; "quit"; "done"] /\
  done (manager (mkHost (set_done_flag true (manager console)) false)) = true.
Proof.
  assert (H : read 0 IoOk "DONE" console
              = Returned false
                  (mkHost (set_done_flag true (manager console)) false))
    by (vm_compute; reflexivity).
  destruct (read_stops_on_stop_words_only 0 IoOk "DONE" console _ _ H)
    as [[Hstop _] Hdone].
  exact (conj H (conj (Hstop eq_refl) (Hdone eq_refl))).
Defined.




(** ** The console host and the command loop *)

Lemma stdin_read_false r w i h h' :
  InputStdin.read r w i h = Returned false h' -> done (manager h') = true.
Proof.
  unfold InputStdin.read. cbv zeta. destruct i as [c|]; intros H.
  - now apply (read_returned_cases r w c _ false h' H).
  - simpl in H. now inversion H.
Qed.

(** X19.  When the command loop of [ezrun] ends by itself, on a stop
    command or on an interrupt of the console, the Stop Flag that the
    rotation loop polls is set; and what would have been typed after that is
    never read. *)
Theorem ezrun_loop_ends_stopped inputs : forall h h',
  ezrun_loop inputs h = Some (Returned tt h') ->
  done (manager h') = true /\
  forall more, ezrun_loop (inputs ++ more) h = Some (Returned tt h').
Proof.
  induction inputs as [|[[r w] i] inputs IH]; cbn [ezrun_loop app];
    intros h h' H; [discriminate|].
  destruct (InputStdin.read r w i h) as [[] h1| |] eqn:E; try discriminate.
  - exact (IH h1 h' H).
  - inversion H; subst. split; [|reflexivity].
    exact (stdin_read_false r w i h h' E).
Qed.

Lemma ezrun_loop_ends_stopped_witness :
  ezrun_loop [(0, IoOk, InputStdin.Line "next"); (0, IoOk, InputStdin.Interrupt)]
             fresh_console
  = Some (Returned tt
            (state_of
               (InputStdin.read 0 IoOk InputStdin.Interrupt
                  (state_of (InputStdin.read 0 IoOk (InputStdin.Line "next")
                                             fresh_console))))) /\
  done (manager
          (state_of
             (InputStdin.read 0 IoOk InputStdin.Interrupt
                (state_of (InputStdin.read 0 IoOk (InputStdin.Line "next")
                                           fresh_console))))) = true.
Proof.
  assert (H : ezrun_loop [(0, IoOk, InputStdin.Line "next");
                          (0, IoOk, InputStdin.Interrupt)] fresh_console
              = Some (Returned tt
                        (state_of
                           (InputStdin.read 0 IoOk InputStdin.Interrupt
                              (state_of (InputStdin.read 0 IoOk
                                           (InputStdin.Line "next")
                                           fresh_console))))))
    by (vm_compute; reflexivity).
  pose proof (proj1 (ezrun_loop_ends_stopped _ _ _ H)) as D.
  exact (conj H D).
Defined.

(** ** The listener host *)

Lemma read_noop r w h : read r w "noop" h = Returned true h.
Proof. reflexivity. Qed.

Lemma super_read_noop r w h :
  InputServer.super_read r w "noop" h = Returned (InputServer.VBool true) h.
Proof.
  unfold InputServer.super_read. rewrite read_noop. now destruct h.
Qed.

(** X20.  When no command arrives (nobody connects, the receive fails or
    times out, or the peer has closed and zero bytes come), [read] of the
    listener host keeps the loop going without touching the manager or the
    mode, and holds no client socket afterwards; the listening socket
    stays. *)
Theorem server_read_without_command r w f h :
  InputServer.interrupt f = false ->
  (InputServer.server_socket h = InputServer.NoSocket ->
   InputServer.opening f = InputServer.Opened) ->
  (InputServer.client_socket h = false /\
   InputServer.accepting f = InputServer.NotAccepted) \/
  InputServer.receiving f = InputServer.NotReceived \/
  InputServer.receiving f = InputServer.Received "" ->
  exists h',
    InputServer.read r w f h = Returned (InputServer.VBool true) h' /\
    InputServer.base h' = InputServer.base h /\
    InputServer.client_socket h' = false /\
    InputServer.server_socket h'
    = match InputServer.server_socket h with
      | InputServer.NoSocket => InputServer.Listening
      | sock => sock
      end.
Proof.
  destruct h as [b sock client], f as [i o a rc].
  cbn [InputServer.interrupt InputServer.opening InputServer.accepting
       InputServer.receiving InputServer.server_socket
       InputServer.client_socket InputServer.base].
  intros -> Hopen Hnone. unfold InputServer.read.
  cbn [InputServer.interrupt InputServer.opening InputServer.accepting
       InputServer.receiving].
  assert (Ho : sock = InputServer.NoSocket -> o = InputServer.Opened)
    by exact Hopen.
  destruct sock; [rewrite (Ho eq_refl)| |]; clear Hopen Ho;
    destruct client, a;
    destruct Hnone as [[Hc Ha]|[Hr|Hr]]; try discriminate; subst;
    try (destruct rc as [c| |]);
    unfold InputServer._open, InputServer._accept, InputServer._read;
    cbn; try (destruct (String.length c =? 0)); cbn;
    rewrite ?super_read_noop;
    try (eexists; split; [reflexivity|]; cbn; tauto).
Qed.

Lemma server_read_without_command_witness :
  InputServer.interrupt
    (InputServer.mkFates false InputServer.Opened InputServer.Accepted
                         (InputServer.Received "")) = false /\
  exists h',
    InputServer.read 0 IoOk
      (InputServer.mkFates false InputServer.Opened InputServer.Accepted
                           (InputServer.Received "")) fresh_server
    = Returned (InputServer.VBool true) h' /\
    InputServer.base h' = InputServer.base fresh_server /\
    InputServer.client_socket h' = false.
Proof.
  destruct (server_read_without_command 0 IoOk
              (InputServer.mkFates false InputServer.Opened InputServer.Accepted
                                   (InputServer.Received ""))
              fresh_server eq_refl (fun _ => eq_refl)
              (or_intror (or_intror eq_refl)))
    as (h' & E & Hb & Hc & _).
  exact (conj eq_refl (ex_intro _ h' (conj E (conj Hb Hc)))).
Defined.

(** X21.  A command that arrives on the listener (a client is connected or
    has just been accepted, and a non-empty text is received) is handled
    exactly as the console host handles the same text, and the client stays
    connected for the next [read]. *)
Theorem server_read_with_command r w f h command :
  InputServer.interrupt f = false ->
  InputServer.server_socket h = InputServer.Listening \/
  (InputServer.server_socket h = InputServer.NoSocket /\
   InputServer.opening f = InputServer.Opened) ->
  InputServer.client_socket h = true \/
  InputServer.accepting f = InputServer.Accepted ->
  InputServer.receiving f = InputServer.Received command ->
  command <> "" ->
  InputServer.read r w f h
  = match read r w command (InputServer.base h) with
    | Returned b h' =>
        Returned (InputServer.VBool b)
                 (InputServer.mkServer h' InputServer.Listening true)
    | Raise e h' =>
        Raise e (InputServer.mkServer h' InputServer.Listening true)
    | Blocked h' =>
        Blocked (InputServer.mkServer h' InputServer.Listening true)
    end.
Proof.
  destruct h as [b sock client], f as [i o a rc].
  cbn [InputServer.interrupt InputServer.opening InputServer.accepting
       InputServer.receiving InputServer.server_socket
       InputServer.client_socket InputServer.base].
  intros -> Hsock Hclient -> Hne. unfold InputServer.read.
  cbn [InputServer.interrupt InputServer.opening InputServer.accepting
       InputServer.receiving].
  assert (Hlen : (String.length command =? 0) = false)
    by (destruct command; [congruence|reflexivity]).
  destruct Hsock as [->|[-> ->]];
    destruct Hclient as [->| ->];
    unfold InputServer._open, InputServer._accept, InputServer._read;
    cbn [InputServer.server_socket InputServer.client_socket InputServer.base
         bind negb];
    try (destruct client);
    cbn [InputServer.server_socket InputServer.client_socket InputServer.base
         bind negb];
    rewrite Hlen; reflexivity.
Qed.

Lemma server_read_with_command_witness :
  InputServer.interrupt
    (InputServer.mkFates false InputServer.Opened InputServer.Accepted
                         (InputServer.Received "Next")) = false /\
  "Next" <> "" /\
  InputServer.read 0 IoOk
    (InputServer.mkFates false InputServer.Opened InputServer.Accepted
                         (InputServer.Received "Next")) fresh_server
  = match read 0 IoOk "Next" (InputServer.base fresh_server) with
    | Returned b h' =>
        Returned (InputServer.VBool b)
                 (InputServer.mkServer h' InputServer.Listening true)
    | Raise e h' =>
        Raise e (InputServer.mkServer h' InputServer.Listening true)
    | Blocked h' =>
        Blocked (InputServer.mkServer h' InputServer.Listening true)
    end.
Proof.
  assert (Hne : "Next" <> "") by discriminate.
  exact (conj eq_refl
           (conj Hne
              (server_read_with_command 0 IoOk
                 (InputServer.mkFates false InputServer.Opened
                    InputServer.Accepted (InputServer.Received "Next"))
                 fresh_server "Next" eq_refl
                 (or_intror (conj eq_refl eq_refl)) (or_intror eq_refl)
                 eq_refl Hne))).
Defined.

(** X22.  An interrupt that reaches the handler of the listener's [read]
    sets the Stop Flag but returns the string noop, which is true for the
    [while] of [ezrun]: unlike on the console host, where the interrupt
    returns [False], the command loop goes on. *)
Theorem server_interrupt_keeps_loop r w f h :
  InputServer.interrupt f = true ->
  exists v h',
    InputServer.read r w f h = Returned v h' /\
    InputServer.truthy v = true /\
    done (manager (InputServer.base h')) = true /\
    InputStdin.read r w InputStdin.Interrupt (InputServer.base h)
    = Returned false
        (mkHost (set_done_flag true
                   (log (Print InputStdin.prompt)
                        (manager (InputServer.base h))))
                (mode_favorites (InputServer.base h))).
Proof.
  intros Hi. unfold InputServer.read. rewrite Hi.
  do 2 eexists. split; [reflexivity|]. repeat split.
Qed.

Lemma server_interrupt_keeps_loop_witness :
  InputServer.interrupt
    (InputServer.mkFates true InputServer.Opened InputServer.Accepted
                         InputServer.NotReceived) = true /\
  exists v h',
    InputServer.read 0 IoOk
      (InputServer.mkFates true InputServer.Opened InputServer.Accepted
                           InputServer.NotReceived) fresh_server
    = Returned v h' /\
    InputServer.truthy v = true /\
    done (manager (InputServer.base h')) = true.
Proof.
  destruct (server_interrupt_keeps_loop 0 IoOk
              (InputServer.mkFates true InputServer.Opened InputServer.Accepted
                                   InputServer.NotReceived)
              fresh_server eq_refl) as (v & h' & E & Ht & Hd & _).
  exact (conj eq_refl (ex_intro _ v (ex_intro _ h' (conj E (conj Ht Hd))))).
Defined.

(** X23.  A failure to bind or listen surfaces once, as the [OSError] of
    that [read]; the socket is stored all the same, so no later [read]
    tries again: each one keeps the loop going and changes nothing, whatever
    would connect or arrive. *)
Theorem server_bind_failure_is_final r w f h :
  InputServer.interrupt f = false ->
  InputServer.server_socket h = InputServer.NoSocket ->
  InputServer.client_socket h = false ->
  InputServer.opening f = InputServer.BindFailed ->
  exists h1,
    InputServer.read r w f h = Raise Py.OSError h1 /\
    InputServer.base h1 = InputServer.base h /\
    forall r' w' f',
      InputServer.interrupt f' = false ->
      InputServer.read r' w' f' h1 = Returned (InputServer.VBool true) h1.
Proof.
  destruct h as [b sock client], f as [i o a rc].
  cbn [InputServer.interrupt InputServer.opening InputServer.accepting
       InputServer.receiving InputServer.server_socket
       InputServer.client_socket InputServer.base].
  intros -> -> -> ->.
  exists (InputServer.mkServer b InputServer.Unbound false).
  split; [reflexivity|]. split; [reflexivity|].
  intros r' w' [i' o' a' rc'].
  cbn [InputServer.interrupt]. intros ->.
  unfold InputServer.read, InputServer._open, InputServer._accept,
    InputServer._read.
  cbn [InputServer.interrupt InputServer.opening InputServer.accepting
       InputServer.receiving InputServer.server_socket
       InputServer.client_socket InputServer.base bind negb].
  destruct a'; cbn [InputServer.client_socket negb bind];
    apply super_read_noop.
Qed.

Lemma server_bind_failure_is_final_witness :
  InputServer.server_socket fresh_server = InputServer.NoSocket /\
  InputServer.client_socket fresh_server = false /\
  exists h1,
    InputServer.read 0 IoOk
      (InputServer.mkFates false InputServer.BindFailed InputServer.Accepted
                           (InputServer.Received "next")) fresh_server
    = Raise Py.OSError h1 /\
    InputServer.read 0 IoOk
      (InputServer.mkFates false InputServer.Opened InputServer.Accepted
                           (InputServer.Received "next")) h1
    = Returned (InputServer.VBool true) h1.
Proof.
  destruct (server_bind_failure_is_final 0 IoOk
              (InputServer.mkFates false InputServer.BindFailed
                 InputServer.Accepted (InputServer.Received "next"))
              fresh_server eq_refl eq_refl eq_refl eq_refl)
    as (h1 & E & _ & Hlater).
  exact (conj eq_refl (conj eq_refl
           (ex_intro _ h1
              (conj E (Hlater 0 IoOk
                         (InputServer.mkFates false InputServer.Opened
                            InputServer.Accepted
                            (InputServer.Received "next")) eq_refl))))).
Defined.

(** X24.  Bytes that are not UTF-8 are not turned into noop: the decoding
    error leaves [read] as a [ValueError], with the manager untouched and
    the client still connected. *)
Theorem server_read_undecodable r w f h :
  InputServer.interrupt f = false ->
  InputServer.server_socket h = InputServer.Listening ->
  InputServer.client_socket h = true \/
  InputServer.accepting f = InputServer.Accepted ->
  InputServer.receiving f = InputServer.Undecodable ->
  InputServer.read r w f h
  = Raise Py.ValueError
      (InputServer.mkServer (InputServer.base h) InputServer.Listening true).
Proof.
  destruct h as [b sock client], f as [i o a rc].
  cbn [InputServer.interrupt InputServer.opening InputServer.accepting
       InputServer.receiving InputServer.server_socket
       InputServer.client_socket InputServer.base].
  intros -> -> Hclient ->.
  unfold InputServer.read, InputServer._open, InputServer._accept,
    InputServer._read.
  cbn [InputServer.interrupt InputServer.opening InputServer.accepting
       InputServer.receiving InputServer.server_socket
       InputServer.client_socket InputServer.base bind negb].
  destruct Hclient as [->| ->]; [reflexivity|].
  now destruct client.
Qed.

Lemma server_read_undecodable_witness :
  InputServer.server_socket
    (InputServer.mkServer fresh_console InputServer.Listening true)
  = InputServer.Listening /\
  InputServer.read 0 IoOk
    (InputServer.mkFates false InputServer.Opened InputServer.NotAccepted
                         InputServer.Undecodable)
    (InputServer.mkServer fresh_console InputServer.Listening true)
  = Raise Py.ValueError
      (InputServer.mkServer fresh_console InputServer.Listening true).
Proof.
  exact (conj eq_refl
           (server_read_undecodable 0 IoOk
              (InputServer.mkFates false InputServer.Opened
                 InputServer.NotAccepted InputServer.Undecodable)
              (InputServer.mkServer fresh_console InputServer.Listening true)
              eq_refl eq_refl (or_introl eq_refl) eq_refl)).
Defined.

(** ** The extension histogram *)

Lemma increment_total e h : total (increment e h) = (total h + 1)%Z.
Proof.
  unfold total. induction h as [|[k n] h IH]; simpl; [reflexivity|].
  destruct (String.eqb e k); simpl; [lia|]. rewrite IH. lia.
Qed.

Lemma increment_count e e' h :
  count_of e (increment e' h)
  = (count_of e h + if String.eqb e e' then 1 else 0)%Z.
Proof.
  induction h as [|[k n] h IH]; simpl.
  - destruct (String.eqb e e'); reflexivity.
  - destruct (String.eqb_spec e' k) as [->|ne]; simpl.
    + destruct (String.eqb e k); lia.
    + destruct (String.eqb_spec e k) as [->|ne'].
      * destruct (String.eqb_spec k e'); [congruence|lia].
      * exact IH.
Qed.

Lemma increment_keys e h x :
  In x (map fst (increment e h)) <-> x = e \/ In x (map fst h).
Proof.
  induction h as [|[k n] h IH]; simpl.
  - intuition.
  - destruct (String.eqb_spec e k) as [->|ne]; simpl; [intuition|].
    rewrite IH. intuition.
Qed.

Lemma increment_nodup e h :
  NoDup (map fst h) -> NoDup (map fst (increment e h)).
Proof.
  induction h as [|[k n] h IH]; simpl; intros Hn.
  - constructor; [intros []|constructor].
  - inversion Hn as [|? ? Hk Hh]; subst.
    destruct (String.eqb_spec e k) as [->|ne]; simpl.
    + now constructor.
    + constructor; [|now apply IH].
      rewrite increment_keys. intros [->|Hin]; [congruence|contradiction].
Qed.

Lemma increment_positive e h :
  (forall k n, In (k, n) h -> (1 <= n)%Z) ->
  forall k n, In (k, n) (increment e h) -> (1 <= n)%Z.
Proof.
  induction h as [|[k0 n0] h IH]; simpl; intros Hpos k n Hin.
  - destruct Hin as [E|[]]. inversion E. lia.
  - destruct (String.eqb e k0); simpl in Hin.
    + destruct Hin as [E|Hin]; [|eauto].
      inversion E; subst. specialize (Hpos k n0 (or_introl eq_refl)). lia.
    + destruct Hin as [E|Hin]; [inversion E; subst; eauto|].
      apply (IH (fun k n H => Hpos k n (or_intror H)) k n Hin).
Qed.

Lemma histogram_from fs : forall h,
  let h' := fold_left (fun histogram filepath =>
                         increment (snd (OsPath.splitext filepath)) histogram)
                      fs h in
  total h' = (total h + Z.of_nat (List.length fs))%Z /\
  (forall e, count_of e h'
             = (count_of e h
                + Z.of_nat (count_occ string_dec (map extension_of fs) e))%Z)
  /\
  (NoDup (map fst h) -> NoDup (map fst h')) /\
  (forall e, In e (map fst h') <->
             In e (map fst h) \/ In e (map extension_of fs)) /\
  ((forall k n, In (k, n) h -> (1 <= n)%Z) ->
   forall k n, In (k, n) h' -> (1 <= n)%Z).
Proof.
  induction fs as [|f fs IH]; intros h; cbn [fold_left].
  - simpl. repeat split; try tauto; intros; try lia.
  - destruct (IH (increment (snd (OsPath.splitext f)) h))
      as (Ht & Hc & Hn & Hk & Hp).
    cbv zeta in *. split; [|split; [|split; [|split]]].
    + rewrite Ht, increment_total. cbn [List.length]. lia.
    + intros e. rewrite Hc, increment_count. cbn [map count_occ].
      unfold extension_of at 2.
      destruct (string_dec (snd (OsPath.splitext f)) e) as [->|ne].
      * rewrite String.eqb_refl. lia.
      * destruct (String.eqb_spec e (snd (OsPath.splitext f)));
          [congruence|lia].
    + intros H. apply Hn. now apply increment_nodup.
    + intros e. rewrite Hk, increment_keys. cbn [map In].
      unfold extension_of at 2. intuition.
    + intros H. apply Hp. now apply increment_positive.
Qed.

(** X25.  The counts of the histogram add up to the number of paths it was
    built from: every path is counted once, under one key. *)
Theorem histogram_total filepaths :
  total (histogram_extensions filepaths)
  = Z.of_nat (List.length filepaths).
Proof.
  destruct (histogram_from filepaths []) as (Ht & _). exact Ht.
Qed.

(** X26.  The count the histogram holds for an extension is the number of
    paths that have this extension, [0] (no entry) when none has. *)
Theorem histogram_count filepaths extension :
  count_of extension (histogram_extensions filepaths)
  = Z.of_nat (count_occ string_dec (map extension_of filepaths) extension).
Proof.
  destruct (histogram_from filepaths []) as (_ & Hc & _). exact (Hc extension).
Qed.

(** X27.  The histogram has one entry for each extension that occurs among
    the paths, none for any other, and no entry with a count below 1. *)
Theorem histogram_keys filepaths :
  NoDup (map fst (histogram_extensions filepaths)) /\
  (forall extension,
     In extension (map fst (histogram_extensions filepaths)) <->
     In extension (map extension_of filepaths)) /\
  (forall extension n,
     In (extension, n) (histogram_extensions filepaths) -> (1 <= n)%Z).
Proof.
  destruct (histogram_from filepaths []) as (_ & _ & Hn & Hk & Hp).
  split; [apply Hn; constructor|]. split.
  - intros e. rewrite (Hk e). simpl. tauto.
  - apply Hp. intros k n [].
Qed.

(** *** What an extension looks like *)

Lemma get_some_lt n : forall s c, String.get n s = Some c -> n < String.length s.
Proof.
  induction n as [|n IH]; intros [|a s] c H; simpl in *;
    try discriminate; [lia|].
  apply IH in H. lia.
Qed.

(** [rfind] gives the last place where the character stands. *)
Lemma rfind_from_spec c s : forall i best,
  (OsPath.rfind_from c s i best = best /\
   forall n, String.get n s <> Some c) \/
  (exists n, OsPath.rfind_from c s i best = (i + Z.of_nat n)%Z /\
             String.get n s = Some c /\
             forall m, n < m -> String.get m s <> Some c).
Proof.
  induction s as [|a s IH]; intros i best; simpl.
  - left. split; [reflexivity|discriminate].
  - destruct (IH (i + 1)%Z (if Ascii.eqb a c then i else best))
      as [[E Hnone]|(n & E & Hn & Hlater)].
    + destruct (Ascii.eqb_spec a c) as [->|ne].
      * right. exists 0. rewrite E. split; [lia|]. split; [reflexivity|].
        intros [|m] Hm; [lia|]. apply Hnone.
      * left. split; [exact E|]. intros [|n]; [congruence|apply Hnone].
    + right. exists (S n). rewrite E. split; [lia|]. split; [exact Hn|].
      intros [|m] Hm; [lia|]. apply Hlater. lia.
Qed.

Lemma rfind_spec s c :
  (OsPath.rfind s c = (-1)%Z /\ forall n, String.get n s <> Some c) \/
  (exists n, OsPath.rfind s c = Z.of_nat n /\
             String.get n s = Some c /\
             forall m, n < m -> String.get m s <> Some c).
Proof.
  unfold OsPath.rfind.
  destruct (rfind_from_spec c s 0 (-1)) as [H|(n & E & H)]; [now left|].
  right. exists n. now rewrite E.
Qed.

(** After the last separator there is no separator. *)
Lemma no_separator_after s c n :
  (OsPath.rfind s c < Z.of_nat n)%Z -> String.get n s <> Some c.
Proof.
  intros Hlt. destruct (rfind_spec s c) as [[_ H]|(k & E & _ & H)];
    [apply H|]. apply H. lia.
Qed.

Lemma substring_split k : forall p,
  k <= String.length p ->
  String.append (substring 0 k p) (substring k (String.length p - k) p) = p.
Proof.
  induction k as [|k IH]; intros p Hk.
  - rewrite Nat.sub_0_r.
    assert (H0 : substring 0 0 p = "") by now destruct p.
    rewrite H0. simpl. clear. induction p as [|a p IH]; simpl; [reflexivity|].
    now rewrite IH.
  - destruct p as [|a p]; simpl in *; [lia|].
    rewrite IH by lia. reflexivity.
Qed.

Lemma splitext_spec p :
  String.append (fst (OsPath.splitext p)) (snd (OsPath.splitext p)) = p /\
  (snd (OsPath.splitext p) = "" \/
   (String.get 0 (snd (OsPath.splitext p)) = Some "."%char /\
    forall n c, 0 < n -> String.get n (snd (OsPath.splitext p)) = Some c ->
                c <> "."%char /\ c <> "/"%char /\ c <> "092"%char)).
Proof.
  unfold OsPath.splitext. cbv zeta.
  destruct ((_ <? _)%Z && _) eqn:C; cbn [fst snd].
  2:{ split; [|now left]. clear. induction p; simpl; congruence. }
  apply andb_prop in C. destruct C as [Hlt _]. apply Z.ltb_lt in Hlt.
  destruct (rfind_spec p ".") as [[E _]|(d & E & Hd & Hlast)];
    [rewrite E in Hlt; pose proof (Z.le_max_l (OsPath.rfind p "092")
                                     (OsPath.rfind p "/"));
     destruct (rfind_spec p "092") as [[E' _]|(k & E' & _)]; lia|].
  rewrite E in *. rewrite Nat2Z.id.
  pose proof (get_some_lt _ _ _ Hd) as Hdlen.
  split; [apply substring_split; lia|]. right. split.
  - rewrite substring_correct1 by lia. exact Hd.
  - intros n c Hn Hget.
    destruct (Nat.lt_ge_cases n (String.length p - d)) as [Hin|Hout];
      [|rewrite substring_correct2 in Hget by exact Hout; discriminate].
    rewrite substring_correct1 in Hget by exact Hin.
    repeat split; intros ->.
    + apply (Hlast (n + d)); [lia|exact Hget].
    + apply (no_separator_after p "/" (n + d)); [lia|exact Hget].
    + apply (no_separator_after p "092" (n + d)); [lia|exact Hget].
Qed.

(** X28.  Every key of the histogram is the end of one of the paths, and it
    is empty or a dot followed by characters that are neither a dot nor a
    slash nor a backslash (character 92). *)
Theorem histogram_key_shape filepaths key :
  In key (map fst (histogram_extensions filepaths)) ->
  (exists filepath root,
     In filepath filepaths /\ filepath = String.append root key) /\
  (key = "" \/
   (String.get 0 key = Some "."%char /\
    forall n c, 0 < n -> String.get n key = Some c ->
                c <> "."%char /\ c <> "/"%char /\ c <> "092"%char)).
Proof.
  intros Hin.
  destruct (histogram_from filepaths []) as (_ & _ & _ & Hk & _).
  apply Hk in Hin. destruct Hin as [[]|Hin].
  apply in_map_iff in Hin. destruct Hin as (f & <- & Hf).
  destruct (splitext_spec f) as [Hsplit Hshape].
  split; [|exact Hshape].
  exists f, (fst (OsPath.splitext f)). split; [exact Hf|].
  symmetry. exact Hsplit.
Qed.

Lemma histogram_key_shape_witness :
  In ".gz" (map fst (histogram_extensions ["C:\w\a.tar.gz"; "C:\w.d\b"])) /\
  exists filepath root,
    In filepath ["C:\w\a.tar.gz"; "C:\w.d\b"] /\
    filepath = String.append root ".gz".
Proof.
  assert (H : In ".gz" (map fst (histogram_extensions
                                   ["C:\w\a.tar.gz"; "C:\w.d\b"])))
    by (vm_compute; tauto).
  exact (conj H (proj1 (histogram_key_shape _ _ H))).
Defined.

Lemma histogram_keys_witness :
  In (".jpg", 2%Z) (histogram_extensions ["a.jpg"; "b.png"; "c.jpg"]) /\
  (1 <= 2)%Z /\
  NoDup (map fst (histogram_extensions ["a.jpg"; "b.png"; "c.jpg"])).
Proof.
  assert (H : In (".jpg", 2%Z)
                 (histogram_extensions ["a.jpg"; "b.png"; "c.jpg"]))
    by (vm_compute; tauto).
  destruct (histogram_keys ["a.jpg"; "b.png"; "c.jpg"]) as (Hn & _ & Hp).
  exact (conj H (conj (Hp _ _ H) Hn)).
Defined.

(** * The History, the command parser and the held lock, revisited *)

(** ** The History is empty only after a failed dislike *)




(** A [dislike] that ends with an error leaves the History empty when it
    held one entry, and the calls that follow return on the empty
    History. *)
Lemma history_empty_after_failed_dislike :
  exists s1 s2,
    dislike IoFailOpen 0 fresh_inside = Raise Py.OSError s1 /\
    history s1 = [] /\ lock s1 = false /\
    undo s1 = Returned tt s2 /\ history s2 = [].
Proof.
  exists (state_of (dislike IoFailOpen 0 fresh_inside)).
  exists (state_of (undo (state_of (dislike IoFailOpen 0 fresh_inside)))).
  vm_compute. repeat split; reflexivity.
Qed.



(** ** A lock that stays held, and who still gets through *)




(** ** What the command parser accepts *)

Lemma read_mode_exact r w c h :
  Py.startswith (Py.lower c) "mode" = true ->
  read r w c h
  = Returned true (mkHost (manager h)
                          (mode_selected (Py.lower c) (mode_favorites h))).
Proof.
  intros H. unfold read, mode_selected. cbv zeta. unfold Py.startswith in *.
  destruct (Py.lower c) as [|c1 [|c2 [|c3 [|c4 rest]]]]; simpl in H;
    repeat match type of H with
           | (if ?d then _ else _) = true => destruct d; [subst|discriminate]
           | _ => try discriminate
           end.
  clear H. simpl (Py.mem _ _). cbv iota.
  replace (prefix "mode" (String "m" (String "o" (String "d" (String "e" rest)))))
    with true by (simpl; repeat (destruct (ascii_dec _ _); [|congruence]);
                  now destruct rest).
  unfold Py.split. simpl Py.split_from.
  destruct (split_from_cons "mode" rest) as (x & l & E); [discriminate|].
  rewrite E. destruct l as [|arg l]; [now destruct h|].
  destruct (String.eqb (Py.lower arg) "normal"); [reflexivity|].
  destruct (String.eqb (Py.lower arg) "fav"); [reflexivity|].
  now destruct h.
Qed.

(** A command that is no accepted word and does not start with mode is
    passed over. *)
Lemma read_ignored r w c h :
  ~ In (Py.lower c)
       ["s"; "sk"; "ski"; "skip"; "u"; "un"; "und"; "undo";
        "n"; "ne"; "nex"; "next"; "l"; "li"; "lis"; "list";
        "f"; "fa"; "fav"] ->
  ~ In (Py.lower c) ["exit"; "quit"; "done"] ->
  Py.startswith (Py.lower c) "mode" = false ->
  read r w c h = Returned true h.
Proof.
  intros Hverb Hstop E. unfold read. cbv zeta.
  rewrite (mem_false (Py.lower c) ["s"; "sk"; "ski"; "skip"])
    by (intros H; apply Hverb; simpl in *; tauto).
  rewrite (mem_false (Py.lower c) ["u"; "un"; "und"; "undo"])
    by (intros H; apply Hverb; simpl in *; tauto).
  rewrite (mem_false (Py.lower c) ["n"; "ne"; "nex"; "next"])
    by (intros H; apply Hverb; simpl in *; tauto).
  rewrite (mem_false (Py.lower c) ["l"; "li"; "lis"; "list"])
    by (intros H; apply Hverb; simpl in *; tauto).
  rewrite (mem_false (Py.lower c) ["f"; "fa"; "fav"])
    by (intros H; apply Hverb; simpl in *; tauto).
  rewrite E, (mem_false _ _ Hstop).
  now destruct (String.eqb (Py.lower c) "noop").
Qed.

Lemma call_mode {A} (m : outcome State A) h (b : bool) :
  mode_favorites (state_of (bind (call m h) (fun _ h => Returned b h)))
  = mode_favorites h.
Proof. now destruct m. Qed.

(** No command but a mode command changes the mode of the host. *)
Lemma read_keeps_mode r w c h :
  Py.startswith (Py.lower c) "mode" = false ->
  mode_favorites (state_of (read r w c h)) = mode_favorites h.
Proof.
  intros E. unfold read. cbv zeta. rewrite E.
  destruct (Py.mem (Py.lower c) ["s"; "sk"; "ski"; "skip"]);
    [apply call_mode|].
  destruct (Py.mem (Py.lower c) ["u"; "un"; "und"; "undo"]);
    [apply call_mode|].
  destruct (Py.mem (Py.lower c) ["n"; "ne"; "nex"; "next"]);
    [apply call_mode|].
  destruct (Py.mem (Py.lower c) ["l"; "li"; "lis"; "list"]);
    [reflexivity|].
  destruct (Py.mem (Py.lower c) ["f"; "fa"; "fav"]); [apply call_mode|].
  destruct (Py.mem (Py.lower c) ["exit"; "quit"; "done"]);
    [apply call_mode|].
  now destruct (String.eqb (Py.lower c) "noop").
Qed.

Lemma stop_prefix_cases p v :
  In v ["exit"; "quit"; "done"] -> String.prefix p v = true -> p <> v ->
  In p [""; "e"; "ex"; "exi"; "q"; "qu"; "qui"; "d"; "do"; "don"].
Proof.
  intros Hv H Hp.
  repeat (destruct Hv as [<-|Hv]); try contradiction;
  repeat (destruct p as [|? p]; [try congruence; simpl; tauto|];
          simpl in H;
          match type of H with
          | (if ?d then _ else _) = true => destruct d; [subst|discriminate]
          | _ => try discriminate
          end).
Qed.

Lemma read_stop_prefix r w h p v :
  In v ["exit"; "quit"; "done"] -> String.prefix p v = true -> p <> v ->
  read r w p h = Returned true h.
Proof.
  intros Hv H Hp. pose proof (stop_prefix_cases p v Hv H Hp) as Hc.
  simpl in Hc.
  repeat (destruct Hc as [Hc|Hc]; [subst p; reflexivity|]).
  contradiction.
Qed.

Lemma lower_char_space c : Py.isspace c = true -> Py.lower_char c = c.
Proof.
  destruct c as [[] [] [] [] [] [] [] []]; vm_compute; intros H;
    solve [reflexivity | discriminate H].
Qed.

Lemma lower_append a b :
  Py.lower (String.append a b) = String.append (Py.lower a) (Py.lower b).
Proof. induction a as [|c a IH]; simpl; [reflexivity|]. now rewrite IH. Qed.

Lemma get_snoc b ch :
  String.get (String.length b) (String.append b (String ch "")) = Some ch.
Proof. induction b as [|c b IH]; simpl; [reflexivity|exact IH]. Qed.

Lemma length_snoc b ch :
  String.length (String.append b (String ch "")) = S (String.length b).
Proof. induction b as [|c b IH]; simpl; [reflexivity|]. now rewrite IH. Qed.

(** None of the accepted words begins or ends with white space. *)
Lemma word_after_space sp body w :
  Py.isspace sp = true ->
  In w ["s"; "sk"; "ski"; "skip"; "u"; "un"; "und"; "undo";
        "n"; "ne"; "nex"; "next"; "l"; "li"; "lis"; "list";
        "f"; "fa"; "fav"; "exit"; "quit"; "done"] ->
  String sp body <> w.
Proof.
  intros Hsp Hin E. simpl in Hin.
  repeat (destruct Hin as [<-|Hin];
          [inversion E; subst; vm_compute in Hsp; discriminate Hsp|]).
  contradiction.
Qed.

Lemma word_before_space sp body w :
  Py.isspace sp = true ->
  In w ["s"; "sk"; "ski"; "skip"; "u"; "un"; "und"; "undo";
        "n"; "ne"; "nex"; "next"; "l"; "li"; "lis"; "list";
        "f"; "fa"; "fav"; "exit"; "quit"; "done"] ->
  String.append body (String sp "") <> w.
Proof.
  intros Hsp Hin E.
  pose proof (get_snoc body sp) as Hget.
  pose proof (length_snoc body sp) as Hlen.
  rewrite E in Hget, Hlen. simpl in Hin.
  repeat (destruct Hin as [<-|Hin];
          [simpl in Hlen; injection Hlen as Hlen; rewrite <- Hlen in Hget;
           simpl in Hget; inversion Hget; subst;
           vm_compute in Hsp; discriminate Hsp|]).
  contradiction.
Qed.

Lemma read_leading_space r w sp body h :
  Py.isspace sp = true -> read r w (String sp body) h = Returned true h.
Proof.
  intros Hsp. apply read_ignored; cbn [Py.lower];
    rewrite (lower_char_space sp Hsp).
  - intros Hin.
    refine (word_after_space sp (Py.lower body) _ Hsp _ eq_refl).
    simpl in *. tauto.
  - intros Hin.
    refine (word_after_space sp (Py.lower body) _ Hsp _ eq_refl).
    simpl in *. tauto.
  - unfold Py.startswith. cbn [String.prefix].
    destruct (ascii_dec "m" sp) as [<-|ne]; [|reflexivity].
    vm_compute in Hsp. discriminate Hsp.
Qed.

Lemma read_trailing_space r w sp body h :
  Py.isspace sp = true ->
  Py.startswith (Py.lower (String.append body (String sp ""))) "mode" = false ->
  read r w (String.append body (String sp "")) h = Returned true h.
Proof.
  intros Hsp Hmode. apply read_ignored; [| |exact Hmode];
    rewrite lower_append; cbn [Py.lower]; rewrite (lower_char_space sp Hsp).
  - intros Hin.
    refine (word_before_space sp (Py.lower body) _ Hsp _ eq_refl).
    simpl in *. tauto.
  - intros Hin.
    refine (word_before_space sp (Py.lower body) _ Hsp _ eq_refl).
    simpl in *. tauto.
Qed.

(** C4, amended.  Parsing is case-insensitive: commands with the same
    lower-casing are handled identically.  Every non-empty prefix of skip,
    undo, next, list and fav is handled as the whole verb, which calls
    [dislike], [undo], [pick] in the mode of the host, prints mode and
    Chosen, and calls [favorite].  exit, quit and done are accepted only in
    full: in full they set the Stop Flag and stop the host, a proper prefix
    of them is passed over.  mode is accepted only when the lower-cased
    command starts with the whole word mode: then the second word selects
    the mode and the manager is left alone, and no other command changes the
    mode.  The command is not trimmed: with white space in front, or with
    white space at its end unless it starts with mode, it is passed over. *)
Theorem read_case_and_prefix r w h :
  (forall c1 c2, Py.lower c1 = Py.lower c2 ->
                 read r w c1 h = read r w c2 h) /\
  (forall v p, In v ["skip"; "undo"; "next"; "list"; "fav"] -> p <> "" ->
               String.prefix p v = true -> read r w p h = read r w v h) /\
  (read r w "skip" h
   = bind (call (dislike w r (manager h)) h) (fun _ h => Returned true h) /\
   read r w "undo" h
   = bind (call (undo (manager h)) h) (fun _ h => Returned true h) /\
   read r w "next" h
   = bind (call (pick r (mode_favorites h) (manager h)) h)
          (fun _ h => Returned true h) /\
   read r w "list" h
   = Returned true
       (print (String.append "Wall: " (chosen (manager h)))
              (print (String.append "Mode: "
                        (if mode_favorites h then "Fav" else "Normal")) h)) /\
   read r w "fav" h
   = bind (call (favorite w (manager h)) h) (fun _ h => Returned true h)) /\
  (forall c, In (Py.lower c) ["exit"; "quit"; "done"] ->
             read r w c h
             = Returned false (mkHost (set_done_flag true (manager h))
                                      (mode_favorites h))) /\
  (forall v p c, In v ["exit"; "quit"; "done"] ->
                 String.prefix p v = true -> p <> v -> Py.lower c = p ->
                 read r w c h = Returned true h) /\
  (forall c, Py.startswith (Py.lower c) "mode" = true ->
             read r w c h
             = Returned true
                 (mkHost (manager h)
                         (mode_selected (Py.lower c) (mode_favorites h)))) /\
  (forall c, Py.startswith (Py.lower c) "mode" = false ->
             mode_favorites (state_of (read r w c h)) = mode_favorites h) /\
  (forall sp body, Py.isspace sp = true ->
                   read r w (String sp body) h = Returned true h) /\
  (forall sp body,
     Py.isspace sp = true ->
     Py.startswith (Py.lower (String.append body (String sp ""))) "mode"
     = false ->
     read r w (String.append body (String sp "")) h = Returned true h).
Proof.
  split; [|split; [|split; [|split; [|split; [|split; [|split; [|split]]]]]]].
  - intros c1 c2 E. rewrite <- (read_lower r w c1), <- (read_lower r w c2).
    now rewrite E.
  - intros v p. apply read_prefix.
  - split; [reflexivity|]. split; [reflexivity|]. split; [reflexivity|].
    split; reflexivity.
  - intros c. apply read_stop.
  - intros v p c Hv Hp Hne E. rewrite <- (read_lower r w c), E.
    exact (read_stop_prefix r w h p v Hv Hp Hne).
  - intros c. apply read_mode_exact.
  - intros c. apply read_keeps_mode.
  - intros sp body. apply read_leading_space.
  - intros sp body. apply read_trailing_space.
Qed.

Lemma read_case_and_prefix_witness :
  (Py.lower "SKI" = Py.lower "ski" /\
   read 0 IoOk "SKI" console = read 0 IoOk "ski" console) /\
  (In "skip" ["skip"; "undo"; "next"; "list"; "fav"] /\ "ski" <> "" /\
   String.prefix "ski" "skip" = true /\
   read 0 IoOk "ski" console = read 0 IoOk "skip" console) /\
  read 0 IoOk "skip" console
  = bind (call (dislike IoOk 0 (manager console)) console)
         (fun _ h => Returned true h) /\
  (In (Py.lower "Quit") ["exit"; "quit"; "done"] /\
   read 0 IoOk "Quit" console
   = Returned false (mkHost (set_done_flag true (manager console))
                            (mode_favorites console))) /\
  (In "quit" ["exit"; "quit"; "done"] /\ String.prefix "qu" "quit" = true /\
   "qu" <> "quit" /\ Py.lower "QU" = "qu" /\
   read 0 IoOk "QU" console = Returned true console) /\
  (Py.startswith (Py.lower "Mode FAV") "mode" = true /\
   read 0 IoOk "Mode FAV" console
   = Returned true
       (mkHost (manager console)
               (mode_selected (Py.lower "Mode FAV")
                              (mode_favorites console))) /\
   mode_selected (Py.lower "Mode FAV") (mode_favorites console) = true) /\
  (Py.startswith (Py.lower "mo fav") "mode" = false /\
   mode_favorites (state_of (read 0 IoOk "mo fav" console))
   = mode_favorites console) /\
  (Py.isspace " " = true /\
   read 0 IoOk (String " " "skip") console = Returned true console) /\
  (Py.startswith (Py.lower (String.append "skip" (String " " ""))) "mode"
   = false /\
   read 0 IoOk (String.append "skip" (String " " "")) console
   = Returned true console).
Proof.
  destruct (read_case_and_prefix 0 IoOk console)
    as (A & B & (B1 & _) & C & D & E & F & G & H).
  assert (H1 : Py.lower "SKI" = Py.lower "ski") by reflexivity.
  assert (H2 : In "skip" ["skip"; "undo"; "next"; "list"; "fav"])
    by (simpl; tauto).
  assert (H3 : "ski" <> "") by discriminate.
  assert (H4 : String.prefix "ski" "skip" = true) by reflexivity.
  assert (H5 : In (Py.lower "Quit") ["exit"; "quit"; "done"])
    by (vm_compute; tauto).
  assert (H6 : In "quit" ["exit"; "quit"; "done"]) by (simpl; tauto).
  assert (H7 : String.prefix "qu" "quit" = true) by reflexivity.
  assert (H8 : "qu" <> "quit") by discriminate.
  assert (H9 : Py.lower "QU" = "qu") by reflexivity.
  assert (H10 : Py.startswith (Py.lower "Mode FAV") "mode" = true)
    by reflexivity.
  assert (H11 : mode_selected (Py.lower "Mode FAV") (mode_favorites console)
                = true) by reflexivity.
  assert (H12 : Py.startswith (Py.lower "mo fav") "mode" = false)
    by reflexivity.
  assert (H13 : Py.isspace " " = true) by reflexivity.
  assert (H14 : Py.startswith
                  (Py.lower (String.append "skip" (String " " ""))) "mode"
                = false) by reflexivity.
  exact (conj (conj H1 (A "SKI" "ski" H1))
          (conj (conj H2 (conj H3 (conj H4 (B "skip" "ski" H2 H3 H4))))
            (conj B1
              (conj (conj H5 (C "Quit" H5))
                (conj (conj H6 (conj H7 (conj H8 (conj H9
                               (D "quit" "qu" "QU" H6 H7 H8 H9)))))
                  (conj (conj H10 (conj (E "Mode FAV" H10) H11))
                    (conj (conj H12 (F "mo fav" H12))
                      (conj (conj H13 (G " "%char "skip" H13))
                            (conj H14 (H " "%char "skip" H13 H14)))))))))).
Defined.

(** ** Commands that are passed over *)

(** X16.  A command that is none of the prefixes of skip, undo, next, list
    and fav and none of exit, quit and done never touches the manager and
    keeps the host going.  It leaves the mode of the host as it was, unless
    its lower-casing starts with mode: then the mode is what the second
    word selects. *)
Theorem read_leaves_manager_alone r w c h :
  ~ In (Py.lower c)
       ["s"; "sk"; "ski"; "skip"; "u"; "un"; "und"; "undo";
        "n"; "ne"; "nex"; "next"; "l"; "li"; "lis"; "list";
        "f"; "fa"; "fav"] ->
  ~ In (Py.lower c) ["exit"; "quit"; "done"] ->
  read r w c h
  = Returned true
      (mkHost (manager h)
              (if Py.startswith (Py.lower c) "mode"
               then mode_selected (Py.lower c) (mode_favorites h)
               else mode_favorites h)).
Proof.
  intros Hverb Hstop.
  destruct (Py.startswith (Py.lower c) "mode") eqn:E.
  - exact (read_mode_exact r w c h E).
  - rewrite (read_ignored r w c h Hverb Hstop E). now destruct h.
Qed.

Lemma read_leaves_manager_alone_witness :
  ~ In (Py.lower "Hello there")
       ["s"; "sk"; "ski"; "skip"; "u"; "un"; "und"; "undo";
        "n"; "ne"; "nex"; "next"; "l"; "li"; "lis"; "list";
        "f"; "fa"; "fav"] /\
  ~ In (Py.lower "Hello there") ["exit"; "quit"; "done"] /\
  read 0 IoOk "Hello there" (mkHost (manager console) true)
  = Returned true (mkHost (manager console) true).
Proof.
  assert (H1 : ~ In (Py.lower "Hello there")
                    ["s"; "sk"; "ski"; "skip"; "u"; "un"; "und"; "undo";
                     "n"; "ne"; "nex"; "next"; "l"; "li"; "lis"; "list";
                     "f"; "fa"; "fav"])
    by (vm_compute; intuition discriminate).
  assert (H2 : ~ In (Py.lower "Hello there") ["exit"; "quit"; "done"])
    by (vm_compute; intuition discriminate).
  exact (conj H1 (conj H2
           (read_leaves_manager_alone 0 IoOk "Hello there"
              (mkHost (manager console) true) H1 H2))).
Defined.
